(** * Verification of the SurveyCTO dashboard's data pipeline

    Shallow embedding of [src/utils.py] (attachment merge, label metadata,
    label lookups, custom-script runner) and of the custom transform
    [src/specific_scripts/process.py] (role explosion and post-processing).

    Cell values are modelled as strings, integers or the pandas missing
    value NaN; floating point cells are not modelled.  Python's whitespace
    handling ([str.split], [str.strip]) is modelled on the ASCII range. *)

From Stdlib Require Import String Ascii List Bool ZArith Lia.
From Stdlib Require Import Numbers.DecimalString.
From Stdlib Require Import Sorting.Sorted.
Import ListNotations.
Open Scope string_scope.
Open Scope list_scope.

(** ** Cell values and Python helpers *)

Inductive value : Type :=
| VStr (s : string)
| VInt (z : Z)
| VNaN.

Definition value_eqb (a b : value) : bool :=
  match a, b with
  | VStr x, VStr y => String.eqb x y
  | VInt x, VInt y => Z.eqb x y
  | VNaN, VNaN => true
  | _, _ => false
  end.

(** [str(v)] *)
Definition py_str (v : value) : string :=
  match v with
  | VStr s => s
  | VInt z => NilZero.string_of_int (Z.to_int z)
  | VNaN => "nan"
  end.

(** [pd.notna(v)] *)
Definition notna (v : value) : bool :=
  match v with VNaN => false | _ => true end.

(** Python's [str.isspace] on one ASCII character: \t \n \v \f \r,
    the separators 0x1c-0x1f and the space. *)
Definition is_space (c : ascii) : bool :=
  let n := nat_of_ascii c in
  ((9 <=? n) && (n <=? 13))%nat || ((28 <=? n) && (n <=? 32))%nat.

Fixpoint lstrip (s : string) : string :=
  match s with
  | EmptyString => EmptyString
  | String c r => if is_space c then lstrip r else s
  end.

Definition rev_string (s : string) : string :=
  string_of_list_ascii (rev (list_ascii_of_string s)).

(** [s.strip()] *)
Definition strip (s : string) : string :=
  rev_string (lstrip (rev_string (lstrip s))).

(** [s.split()]: split on runs of whitespace, dropping empty pieces.
    [cur] is the token being read, reversed. *)
Fixpoint split_ws_aux (s : string) (cur : list ascii) : list string :=
  match s with
  | EmptyString =>
      match cur with
      | [] => []
      | _ => [string_of_list_ascii (rev cur)]
      end
  | String c r =>
      if is_space c then
        match cur with
        | [] => split_ws_aux r []
        | _ => string_of_list_ascii (rev cur) :: split_ws_aux r []
        end
      else split_ws_aux r (c :: cur)
  end.

Definition split_ws (s : string) : list string := split_ws_aux s [].

(** [sep.join(xs)] *)
Definition join (sep : string) (xs : list string) : string :=
  String.concat sep xs.

(** [pat in s] for strings *)
Fixpoint substringb (pat s : string) : bool :=
  String.prefix pat s ||
  match s with
  | EmptyString => false
  | String _ r => substringb pat r
  end.

(** ** Python dicts as association lists

    Assignment to an existing key overwrites it in place; a new key is
    appended, so keys stay unique and in insertion order. *)

Section Dict.
Context {K V : Type} (keqb : K -> K -> bool).

Fixpoint dict_get (d : list (K * V)) (k : K) : option V :=
  match d with
  | [] => None
  | (k', v) :: r => if keqb k k' then Some v else dict_get r k
  end.

Fixpoint dict_set (d : list (K * V)) (k : K) (v : V) : list (K * V) :=
  match d with
  | [] => [(k, v)]
  | (k', v') :: r =>
      if keqb k k' then (k', v) :: r else (k', v') :: dict_set r k v
  end.

Definition dict_get_default (d : list (K * V)) (k : K) (dflt : V) : V :=
  match dict_get d k with Some v => v | None => dflt end.
End Dict.

(** A pandas row (a Series indexed by column name) or a dict with string
    keys, as built by [process.py]. *)
Definition record := list (string * value).

Definition rget (r : record) (k : string) : option value := dict_get String.eqb r k.
Definition rset (r : record) (k : string) (v : value) : record := dict_set String.eqb r k v.

(** Exceptions are modelled by a result type carrying the exception name. *)
Inductive result (A : Type) : Type :=
| Ok (a : A)
| Err (exn : string).
Arguments Ok {A} a.
Arguments Err {A} exn.

Definition bind {A B} (m : result A) (f : A -> result B) : result B :=
  match m with Ok a => f a | Err e => Err e end.

Notation "x <- m ;; k" := (bind m (fun x => k))
  (at level 61, m at next level, right associativity).

(** ** Tables (pandas DataFrames) *)

Record table : Type := mk_table { cols : list string; rows : list (list value) }.

Definition row_record (cs : list string) (r : list value) : record := combine cs r.

(** [df.iterrows()] seen as a list of rows indexed by column name. *)
Definition table_records (t : table) : list record :=
  map (row_record (cols t)) (rows t).

Fixpoint col_index (cs : list string) (c : string) : option nat :=
  match cs with
  | [] => None
  | c' :: r =>
      if String.eqb c c' then Some 0
      else match col_index r c with Some i => Some (S i) | None => None end
  end.

(** [c in cs] *)
Definition memb (c : string) (cs : list string) : bool :=
  existsb (String.eqb c) cs.

(** [pd.DataFrame(list_of_dicts)]: columns in order of first appearance,
    missing keys filled with NaN. *)
Definition union_keys (recs : list record) : list string :=
  fold_left (fun acc r =>
               fold_left (fun acc k => if memb k acc then acc else acc ++ [k])
                         (map fst r) acc) recs [].

Definition frame_of_records (recs : list record) : table :=
  let cs := union_keys recs in
  mk_table cs (map (fun r => map (fun c => match rget r c with
                                            | Some v => v
                                            | None => VNaN
                                            end) cs) recs).

Fixpoint map_result {A B} (f : A -> result B) (xs : list A) : result (list B) :=
  match xs with
  | [] => Ok []
  | x :: r => y <- f x ;; ys <- map_result f r ;; Ok (y :: ys)
  end.

(** [df[c] = <function of df[c]>] on an existing column; [df[c]] raises
    [KeyError] when the column is absent. *)
Definition column_apply (t : table) (c : string) (f : value -> result value)
  : result table :=
  match col_index (cols t) c with
  | None => Err "KeyError"
  | Some i =>
      rs' <- map_result (fun r =>
                           v <- f (nth i r VNaN) ;;
                           Ok (firstn i r ++ v :: skipn (S i) r)) (rows t) ;;
      Ok (mk_table (cols t) rs')
  end.

(** The values of column [c] ([df[c]]), [None] when it is absent. *)
Definition column (t : table) (c : string) : option (list value) :=
  match col_index (cols t) c with
  | None => None
  | Some i => Some (map (fun r => nth i r VNaN) (rows t))
  end.

(** Exceptions that are not subclasses of [Exception] but only of
    [BaseException]: [except Exception] does not catch them. *)
Definition base_only_exceptions : list string :=
  ["SystemExit"; "KeyboardInterrupt"; "GeneratorExit"; "BaseExceptionGroup"].

(** Whether [except Exception] catches an exception of this class. *)
Definition caught_by_except_exception (e : string) : bool :=
  negb (existsb (String.eqb e) base_only_exceptions).

(** [run_specific_scripts] (utils.py 314-371) on the Python scripts of the
    folder, already in [sorted(os.listdir(folder))] order.  A script
    receives the current table as [df]; an error is the class name of the
    exception it raises.  An [Exception] is caught by [except Exception],
    printed, and [df] keeps the table the script received; [SystemExit],
    [KeyboardInterrupt] and the other [BaseException]s leave the loop and
    reach the caller. *)
Fixpoint run_specific_scripts (scripts : list (table -> result table)) (df : table)
  : result table :=
  match scripts with
  | [] => Ok df
  | script :: rest =>
      df' <- (match script df with
              | Ok d => Ok d
              | Err e => if caught_by_except_exception e then Ok df else Err e
              end) ;;
      run_specific_scripts rest df'
  end.

(** ** [process.py]: role explosion (lines 1-40) *)

Module Process.

Definition role_suffix_map : list (string * string) :=
  [("RA", "_ra"); ("FC", "_fc"); ("Hybrid", "_hyb"); ("Other", "")].

Definition base_columns : list string :=
  ["project_name"; "project_location"; "pi_name"; "pi_add";
   "project_blurb"; "hire_role"; "hire_role_other"; "KEY"; "hire_predoc_ra"].

Definition column_prefixes : list string :=
  ["number_role"; "hire_position_location"; "hire_desired_date";
   "position_details_others"; "language"; "skill_labels";
   "language_stata"; "language_r"; "language_scto"; "language_other";
   "language_bigdata"; "language_python"].

(** [{col: row[col] for col in base_columns if col in row}] *)
Definition copy_base (row : record) : record :=
  fold_left (fun acc col =>
               match rget row col with
               | Some v => rset acc col v
               | None => acc
               end) base_columns [].

(** [for col_prefix in column_prefixes: ... if full_col in row and
    pd.notna(row[full_col]): new_row[col_prefix] = row[full_col]] *)
Definition copy_variants (row : record) (suffix : string) (acc : record) : record :=
  fold_left (fun acc col_prefix =>
               match rget row (String.append col_prefix suffix) with
               | Some v => if notna v then rset acc col_prefix v else acc
               | None => acc
               end) column_prefixes acc.

(** [row.get("hire_role_other", "").strip()]: [.strip] exists only on
    strings; on any other value it raises [AttributeError]. *)
Definition role_other_value (row : record) : result string :=
  match dict_get_default String.eqb row "hire_role_other" (VStr "") with
  | VStr s => Ok (strip s)
  | _ => Err "AttributeError"
  end.

(** The body of [for role in roles:] for one token. *)
Definition explode_role (row : record) (role : string) : result (list record) :=
  let role_clean := strip role in
  match dict_get String.eqb role_suffix_map role_clean with
  | None => Ok []
  | Some suffix =>
      let new_row := copy_base row in
      r <- (if String.eqb role_clean "Other" then
              o <- role_other_value row ;;
              Ok (VStr (if String.eqb o "" then "Other" else o))
            else Ok (VStr role_clean)) ;;
      let new_row := rset new_row "hire_role" r in
      Ok [copy_variants row suffix new_row]
  end.

(** [roles = str(row.get("hire_role", "")).split()] *)
Definition roles_of (row : record) : list string :=
  split_ws (py_str (dict_get_default String.eqb row "hire_role" (VStr ""))).

Fixpoint explode_roles (row : record) (roles : list string) : result (list record) :=
  match roles with
  | [] => Ok []
  | role :: rest =>
      a <- explode_role row role ;;
      b <- explode_roles row rest ;;
      Ok (a ++ b)
  end.

Definition explode_row (row : record) : result (list record) :=
  explode_roles row (roles_of row).

(** [for _, row in df.iterrows(): ...] collecting [long_rows]. *)
Fixpoint explode (rows : list record) : result (list record) :=
  match rows with
  | [] => Ok []
  | row :: rest =>
      a <- explode_row row ;;
      b <- explode rest ;;
      Ok (a ++ b)
  end.

(** ** [process.py]: post-processing (lines 42-53) *)

(** Strings hold UTF-8 bytes; Python's [len] counts code points, i.e. the
    bytes that are not continuation bytes [10xxxxxx]. *)
Fixpoint py_len (s : string) : nat :=
  match s with
  | EmptyString => 0
  | String c r =>
      let n := nat_of_ascii c in
      if ((128 <=? n) && (n <=? 191))%nat then py_len r else S (py_len r)
  end.

(** [sorted(names, key=lambda x: -len(x))]: a stable sort, longest first. *)
Fixpoint insert_by_len (x : string) (l : list string) : list string :=
  match l with
  | [] => [x]
  | y :: r => if (py_len y <? py_len x)%nat then x :: l else y :: insert_by_len x r
  end.

Definition sort_by_len_desc (l : list string) : list string :=
  fold_left (fun acc x => insert_by_len x acc) l [].

(** [[name for name in sorted(...) if name in str(text)]], where
    [countries] is [[c.name for c in pycountry.countries]]. *)
Definition matched_names (countries : list string) (text : value) : list string :=
  filter (fun name => substringb name (py_str text))
         (sort_by_len_desc (countries ++ ["Global"])).

Definition normalize_location (countries : list string) (text : value) : string :=
  join ", " (matched_names countries text).

(** [int(x)] on a [str], as CPython 3.11 does it ([PyLong_FromUnicodeObject]
    with base 10).  The string is first decoded from UTF-8 into code points
    and put through [_PyUnicode_TransformDecimalAndSpaceToASCII]: a code
    point below 127 is kept, a Unicode space becomes [' '], a Unicode
    decimal digit becomes its ASCII digit and anything else becomes ['?'].
    [PyLong_FromString] then reads ASCII whitespace, an optional sign, a
    run of digits in which single underscores may separate digits, and
    ASCII whitespace up to the end.  More than 4300 digits raise
    ([sys.int_info.default_max_str_digits]). *)

(** UTF-8 decoding; a byte that does not start a well-formed sequence is
    read as U+FFFD (a Python [str] always encodes to well-formed UTF-8). *)
Definition byte_val (a : ascii) : Z := Z.of_nat (nat_of_ascii a).

Definition is_cont (a : ascii) : bool :=
  (128 <=? byte_val a)%Z && (byte_val a <? 192)%Z.

Fixpoint utf8_decode (s : string) : list Z :=
  match s with
  | EmptyString => []
  | String a r =>
      let b := byte_val a in
      if (b <? 128)%Z then b :: utf8_decode r
      else if ((192 <=? b) && (b <? 224))%Z then
        match r with
        | String a1 r1 =>
            if is_cont a1
            then (Z.land b 31 * 64 + (byte_val a1 - 128))%Z :: utf8_decode r1
            else 65533%Z :: utf8_decode r
        | EmptyString => [65533%Z]
        end
      else if ((224 <=? b) && (b <? 240))%Z then
        match r with
        | String a1 (String a2 r2) =>
            if is_cont a1 && is_cont a2
            then (Z.land b 15 * 4096 + (byte_val a1 - 128) * 64
                  + (byte_val a2 - 128))%Z :: utf8_decode r2
            else 65533%Z :: utf8_decode r
        | _ => 65533%Z :: utf8_decode r
        end
      else if ((240 <=? b) && (b <? 248))%Z then
        match r with
        | String a1 (String a2 (String a3 r3)) =>
            if is_cont a1 && is_cont a2 && is_cont a3
            then (Z.land b 7 * 262144 + (byte_val a1 - 128) * 4096
                  + (byte_val a2 - 128) * 64 + (byte_val a3 - 128))%Z :: utf8_decode r3
            else 65533%Z :: utf8_decode r
        | _ => 65533%Z :: utf8_decode r
        end
      else 65533%Z :: utf8_decode r
  end.

(** Code points above 127 for which [str.isspace] holds (Unicode 14.0,
    the database of Python 3.11). *)
Definition unicode_spaces : list Z :=
  [133; 160; 5760; 8192; 8193; 8194; 8195; 8196; 8197; 8198; 8199; 8200;
   8201; 8202; 8232; 8233; 8239; 8287; 12288]%Z.

(** The digit zeros of the Unicode decimal digits (category Nd) above 127;
    each is followed by the digits one to nine (Unicode 14.0). *)
Definition unicode_digit_zeros : list Z :=
  [1632; 1776; 1984; 2406; 2534; 2662; 2790; 2918; 3046; 3174; 3302; 3430;
   3558; 3664; 3792; 3872; 4160; 4240; 6112; 6160; 6470; 6608; 6784; 6800;
   6992; 7088; 7232; 7248; 42528; 43216; 43264; 43472; 43504; 43600; 44016;
   65296; 66720; 68912; 69734; 69872; 69942; 70096; 70384; 70736; 70864;
   71248; 71360; 71472; 71904; 72016; 72784; 73040; 73120; 92768; 92864;
   93008; 120782; 120792; 120802; 120812; 120822; 123200; 123632; 125264;
   130032]%Z.

(** [Py_UNICODE_TODECIMAL] *)
Definition unicode_decimal (cp : Z) : option Z :=
  match find (fun z0 => (z0 <=? cp) && (cp <? z0 + 10))%Z unicode_digit_zeros with
  | Some z0 => Some (cp - z0)%Z
  | None => None
  end.

(** One code point of [_PyUnicode_TransformDecimalAndSpaceToASCII]. *)
Definition to_ascii_cp (cp : Z) : Z :=
  if (cp <? 127)%Z then cp
  else if existsb (Z.eqb cp) unicode_spaces then 32%Z
  else match unicode_decimal cp with
       | Some d => (48 + d)%Z
       | None => 63%Z
       end.

(** [Py_ISSPACE]: the ASCII whitespace \t \n \v \f \r and the space. *)
Definition c_isspace (n : Z) : bool :=
  ((9 <=? n) && (n <=? 13))%Z || (n =? 32)%Z.

Definition is_digit_cp (n : Z) : bool := ((48 <=? n) && (n <=? 57))%Z.

Fixpoint skip_space (l : list Z) : list Z :=
  match l with
  | n :: r => if c_isspace n then skip_space r else l
  | [] => []
  end.

(** The digit loop of [long_from_string_base]: digits and underscores,
    two underscores in a row or a trailing one being an error.  [prev] is
    the previous character; the result is the value read, the number of
    digits and the rest of the input. *)
Fixpoint scan_digits (l : list Z) (prev : Z) (acc : Z) (ndigits : nat)
  : option (Z * nat * list Z) :=
  match l with
  | n :: r =>
      if is_digit_cp n then scan_digits r n (acc * 10 + (n - 48))%Z (S ndigits)
      else if (n =? 95)%Z then
        if (prev =? 95)%Z then None else scan_digits r n acc ndigits
      else if (prev =? 95)%Z then None else Some (acc, ndigits, l)
  | [] => if (prev =? 95)%Z then None else Some (acc, ndigits, [])
  end.

(** [PyLong_FromString(s, &end, 10)] followed by the check that [end]
    reached the end of the buffer. *)
Definition parse_ascii_int (l : list Z) : option Z :=
  let l := skip_space l in
  let '(sign, l) := match l with
                    | n :: r => if (n =? 43)%Z then (1%Z, r)
                                else if (n =? 45)%Z then ((-1)%Z, r)
                                else (1%Z, l)
                    | [] => (1%Z, l)
                    end in
  match l with
  | n :: _ => if (n =? 95)%Z then None else
      match scan_digits l 0 0 0 with
      | Some (z, nd, rest) =>
          if (nd =? 0)%nat then None
          else if (4300 <? nd)%nat then None
          else match skip_space rest with
               | [] => Some (sign * z)%Z
               | _ => None
               end
      | None => None
      end
  | [] => None
  end.

Definition py_int_of_string (s : string) : option Z :=
  parse_ascii_int (map to_ascii_cp (utf8_decode s)).

(** [series.astype(int)] on an object column casts each cell with NumPy
    to [int64]: the cell goes through [int()], which raises [ValueError]
    on NaN and on strings it does not read, and a result outside the
    [int64] range raises [OverflowError]. *)
Definition int64_min : Z := (- 2 ^ 63)%Z.
Definition int64_max : Z := (2 ^ 63 - 1)%Z.

Definition to_int64 (z : Z) : result value :=
  if ((int64_min <=? z) && (z <=? int64_max))%Z then Ok (VInt z)
  else Err "OverflowError".

(** One cell of [series.astype(int)]. *)
Definition astype_int_cell (v : value) : result value :=
  match v with
  | VInt z => to_int64 z
  | VStr s => match py_int_of_string s with
              | Some z => to_int64 z
              | None => Err "ValueError"
              end
  | VNaN => Err "ValueError"
  end.

(** A value that [astype(int)] rejects. *)
Definition non_numeric (v : value) : bool :=
  match astype_int_cell v with Ok _ => false | Err _ => true end.

(** [re.sub(pat, rep, s)] for a pattern without metacharacters. *)
Fixpoint replace_all_fuel (fuel : nat) (pat rep s : string) : string :=
  match fuel with
  | O => s
  | S f =>
      match s with
      | EmptyString => EmptyString
      | String c r =>
          if String.prefix pat s
          then String.append rep (replace_all_fuel f pat rep (substring (String.length pat)
                                                    (String.length s) s))
          else String c (replace_all_fuel f pat rep r)
      end
  end.

Definition replace_all (pat rep s : string) : string :=
  match pat with
  | EmptyString => s
  | _ => replace_all_fuel (String.length s) pat rep s
  end.

(** The UTF-8 bytes of the pattern in line 52 ("‚", "Ä", "ô"). *)
Definition mojibake_quote : string :=
  string_of_list_ascii (map ascii_of_nat [226; 128; 154; 195; 132; 195; 180]).

(** [df.replace(pat, "'", regex=True)]: substitution in string cells. *)
Definition replace_quotes (t : table) : table :=
  mk_table (cols t)
    (map (map (fun v => match v with
                        | VStr s => VStr (replace_all mojibake_quote "'" s)
                        | _ => v
                        end)) (rows t)).

(** [df.loc[df["pi_add"] == "No", "pi_name"] = ""]; a missing [pi_name]
    column is created, NaN outside the mask. *)
Definition blank_pi_name (t : table) : result table :=
  match column t "pi_add" with
  | None => Err "KeyError"
  | Some mask_col =>
      let mask := map (fun v => value_eqb v (VStr "No")) mask_col in
      match col_index (cols t) "pi_name" with
      | Some i =>
          Ok (mk_table (cols t)
                (map (fun (p : bool * list value) => let (m, r) := p in
                        if m then firstn i r ++ VStr "" :: skipn (S i) r else r)
                     (combine mask (rows t))))
      | None =>
          Ok (mk_table (cols t ++ ["pi_name"])
                (map (fun (p : bool * list value) => let (m, r) := p in r ++ [if m then VStr "" else VNaN])
                     (combine mask (rows t))))
      end
  end.

(** Lines 18-48: explosion, then the location normalization. *)
Definition process_stage1 (countries : list string) (df : table) : result table :=
  long_rows <- explode (table_records df) ;;
  let df := frame_of_records long_rows in
  column_apply df "hire_position_location"
    (fun text => Ok (VStr (normalize_location countries text))).

(** The whole script, as run by [run_specific_scripts]: line 50 is
    [df["number_role"] = df["number_role"].astype(int)]. *)
Definition process_script (countries : list string) (df : table) : result table :=
  df <- process_stage1 countries df ;;
  df <- column_apply df "number_role" astype_int_cell ;;
  let df := replace_quotes df in
  blank_pi_name df.

End Process.

(** ** [utils.py]: [merge_attachments] (lines 173-213) *)

Module Attach.

Record form_cfg : Type := mk_form_cfg { form_id : string; match_on : string }.

(** [tab_config["attachments"]]: [from_form] is [None] when the entry is
    absent or empty. *)
Record attach_cfg : Type := mk_attach_cfg {
  from_form : option form_cfg;
  fields : list string
}.

(** [df.rename(columns={old: new})] renames every column named [old]. *)
Definition rename_col (t : table) (old new : string) : table :=
  mk_table (map (fun c => if String.eqb c old then new else c) (cols t)) (rows t).

Fixpoint indices_of (cs : list string) (k : string) (i : nat) : list nat :=
  match cs with
  | [] => []
  | c :: r => if String.eqb c k then i :: indices_of r k (S i) else indices_of r k (S i)
  end.

(** [df[keep]]: every column named by [keep], in [keep]'s order. *)
Definition select (t : table) (keep : list string) : result table :=
  if forallb (fun k => memb k (cols t)) keep then
    let idx := flat_map (fun k => indices_of (cols t) k 0) keep in
    Ok (mk_table (map (fun i => nth i (cols t) "") idx)
                 (map (fun r => map (fun i => nth i r VNaN) idx) (rows t)))
  else Err "KeyError".

Definition count_col (cs : list string) (k : string) : nat :=
  length (indices_of cs k 0).

Fixpoint remove_nth {A} (i : nat) (l : list A) : list A :=
  match i, l with
  | _, [] => []
  | O, _ :: r => r
  | S j, x :: r => x :: remove_nth j r
  end.

(** Labels that are duplicated by suffixing but were distinct before. *)
Fixpoint dup_created (seen_orig seen_new : list string) (orig new : list string) : bool :=
  match orig, new with
  | o :: ro, n :: rn =>
      (memb n seen_new && negb (memb o seen_orig))
      || dup_created (o :: seen_orig) (n :: seen_new) ro rn
  | _, _ => false
  end.

(** [pd.merge(left, right, on=key, how='left')]: the key must be a unique
    column of both tables ([KeyError] / [ValueError] otherwise); the right
    key column is dropped; other overlapping names get [_x] / [_y]
    ([MergeError] if that creates a new duplicate); every left row is kept
    once per matching right row, or once padded with NaN.  Key dtype checks
    are not modelled. *)
Definition merge_left (left right : table) (key : string) : result table :=
  match col_index (cols left) key, col_index (cols right) key with
  | Some li, Some ri =>
      if negb (Nat.eqb (count_col (cols left) key) 1)
         || negb (Nat.eqb (count_col (cols right) key) 1)
      then Err "ValueError"
      else
        let rcols := remove_nth ri (cols right) in
        let overlap c := memb c (cols left) && memb c rcols in
        let lcols' := map (fun c => if overlap c then String.append c "_x" else c) (cols left) in
        let rcols' := map (fun c => if overlap c then String.append c "_y" else c) rcols in
        if dup_created [] [] (cols left) lcols' || dup_created [] [] rcols rcols'
        then Err "MergeError"
        else
          Ok (mk_table (lcols' ++ rcols')
                (flat_map (fun lr =>
                   let kv := nth li lr VNaN in
                   match filter (fun rr => value_eqb (nth ri rr VNaN) kv) (rows right) with
                   | [] => [lr ++ repeat VNaN (length rcols)]
                   | ms => map (fun rr => lr ++ remove_nth ri rr) ms
                   end) (rows left)))
  | _, _ => Err "KeyError"
  end.

(** The attachment fields present in [df_main] renamed to [<field>_file]. *)
Definition rename_attachment_fields (df_main : table) (attachment_fields : list string) : table :=
  fold_left (fun d col => if memb col (cols d) then rename_col d col (String.append col "_file") else d)
            attachment_fields df_main.

(** [fetch form_id] is [scto.get_form_data(...)] followed by [read_csv];
    [Err] when either raises (also when [connect_scto()] gave [None]).
    Inside the [try], [df_main] is rebound by the renaming, so a failing
    merge returns the renamed table. *)
Definition merge_attachments (df_main : table) (cfg : attach_cfg)
    (fetch : string -> result table) : table :=
  match from_form cfg with
  | None => df_main
  | Some fc =>
      match fetch (form_id fc) with
      | Err _ => df_main
      | Ok df_form =>
          if memb (match_on fc) (cols df_main) && memb (match_on fc) (cols df_form) then
            let df_main' := rename_attachment_fields df_main (fields cfg) in
            let keep_fields := match_on fc :: filter (fun c => memb c (cols df_form)) (fields cfg) in
            match (df_form' <- select df_form keep_fields ;;
                   merge_left df_main' df_form' (match_on fc)) with
            | Ok merged => merged
            | Err _ => df_main'
            end
          else df_main
      end
  end.

(** The caller's guard (load_processed_dataset, line 131):
    [any(f"{col}_file" not in df.columns for col in attachment_fields)]. *)
Definition needs_merge (df : table) (attachment_fields : list string) : bool :=
  existsb (fun c => negb (memb (String.append c "_file") (cols df))) attachment_fields.

End Attach.

(** ** [utils.py]: label metadata and lookups (lines 255-310) *)

Module Labels.

(** [label_info]: [select_one] and [select_multiple] map a field name (a
    cell of the survey sheet) to a list name; [label_map] maps a list name
    (a cell of the choices sheet) to a dict from code to label. *)
Record label_info : Type := mk_label_info {
  select_one : list (value * string);
  select_multiple : list (value * string);
  label_map : list (value * list (string * value))
}.

(** Python truthiness of an optional cell ([None] when the column is
    absent); NaN is truthy. *)
Definition truthy (v : option value) : bool :=
  match v with
  | None => false
  | Some (VStr s) => negb (String.eqb s "")
  | Some (VInt z) => negb (Z.eqb z 0)
  | Some VNaN => true
  end.

Definition py_str_opt (v : option value) : string :=
  match v with None => "None" | Some v => py_str v end.

(** The survey-sheet loop (lines 274-283). *)
Definition classify_fields (survey : list record)
  : list (value * string) * list (value * string) :=
  fold_left (fun '(one, multi) row =>
    let field_name := rget row "name" in
    let field_type := py_str_opt (rget row "type") in
    match field_name with
    | Some fname =>
        if truthy field_name then
          if String.prefix "select_one " field_type then
            (dict_set value_eqb one fname (strip (Process.replace_all "select_one " "" field_type)), multi)
          else if String.prefix "select_multiple " field_type then
            (one, dict_set value_eqb multi fname (strip (Process.replace_all "select_multiple " "" field_type)))
          else (one, multi)
        else (one, multi)
    | None => (one, multi)
    end) survey ([], []).

(** [re.sub(r"\.0$", "", s)]: [$] also matches before a final newline. *)
Definition strip_dot0 (s : string) : string :=
  let l := list_ascii_of_string s in
  match rev l with
  | "0" :: "." :: r => string_of_list_ascii (rev r)
  | "010" :: "0" :: "." :: r => string_of_list_ascii (rev ("010" :: r))
  | _ => s
  end%char.

(** [d["value"].astype(str).str.replace(r"\.0$", "", regex=True).str.strip()] *)
Definition normalize_code (v : value) : string := strip (strip_dot0 (py_str v)).

(** [choices_def.dropna(subset=[...]).assign(...).groupby("list_name")
    .apply(lambda g: dict(zip(g["value"], g["label"]))).to_dict()]:
    within a group a later row overwrites an earlier one with the same
    code, as [dict(zip(...))] does. *)
Definition build_label_map (choices : table) : result (list (value * list (string * value))) :=
  if memb "list_name" (cols choices) && memb "value" (cols choices)
     && memb "label" (cols choices) then
    Ok (fold_left (fun lm row =>
          match rget row "list_name", rget row "value", rget row "label" with
          | Some ln, Some v, Some lab =>
              if notna ln && notna v && notna lab then
                dict_set value_eqb lm ln
                  (dict_set String.eqb (dict_get_default value_eqb lm ln [])
                     (normalize_code v) lab)
              else lm
          | _, _, _ => lm
          end) (table_records choices) [])
  else Err "KeyError".

(** [apply_scto_cleaning]: [survey_def] and [choices_def] are the two
    [pd.read_excel] results ([Err] when reading raises). *)
Definition apply_scto_cleaning (df : table) (survey_def choices_def : result table)
  : result (table * label_info) :=
  survey <- survey_def ;;
  choices <- choices_def ;;
  let '(one, multi) := classify_fields (table_records survey) in
  lm <- build_label_map choices ;;
  Ok (df, mk_label_info one multi lm).

(** [label_info["label_map"].get(list_name, {})]; [None] is never a key. *)
Definition choice_list (li : label_info) (list_name : option string) : list (string * value) :=
  match list_name with
  | None => []
  | Some ln => dict_get_default value_eqb (label_map li) (VStr ln) []
  end.

Definition get_label (field : string) (v : value) (li : label_info) : value :=
  let list_name := dict_get value_eqb (select_one li) (VStr field) in
  dict_get_default String.eqb (choice_list li list_name) (strip (py_str v)) v.

(** [" | ".join(...)] raises [TypeError] on a non-string item. *)
Fixpoint strings_of (vs : list value) : result (list string) :=
  match vs with
  | [] => Ok []
  | VStr s :: r => rest <- strings_of r ;; Ok (s :: rest)
  | _ :: _ => Err "TypeError"
  end.

Definition get_labels_for_multiple (field : string) (v : value) (li : label_info)
  : result value :=
  let list_name := dict_get value_eqb (select_multiple li) (VStr field) in
  match list_name, v with
  | Some ln, VStr s =>
      if String.eqb ln "" then Ok v
      else
        let codes := map strip (split_ws (strip s)) in
        let lst := choice_list li list_name in
        labels <- strings_of (map (fun code => dict_get_default String.eqb lst code (VStr code)) codes) ;;
        Ok (VStr (join " | " labels))
  | _, _ => Ok v
  end.

End Labels.

(** ** [utils.py]: the other stages of [load_processed_dataset] and the
    helpers around it *)

Module Pipeline.

(** pandas [==] between a cell and the configured value: NaN equals
    nothing, and [None] (no ["value"] key) equals no modelled cell. *)
Definition py_eq (cell : value) (val : option value) : bool :=
  match cell, val with
  | VNaN, _ => false
  | _, None => false
  | _, Some v => value_eqb cell v
  end.

(** Lines 121-126: [filter_config] is [None] when absent or empty;
    otherwise it gives [filter_config.get("column")] and
    [filter_config.get("value")].  [df[col]] is taken as the first column
    of that name, which is pandas' Series when the name is unique. *)
Definition filter_stage (df : table) (filter_config : option (option string * option value))
  : table :=
  match filter_config with
  | None => df
  | Some (col, val) =>
      match col with
      | None => df
      | Some c =>
          match col_index (cols df) c with
          | None => df
          | Some i => mk_table (cols df) (filter (fun r => py_eq (nth i r VNaN) val) (rows df))
          end
      end
  end.

(** ASCII letters and their cases. *)
Definition is_upper (c : ascii) : bool :=
  let n := nat_of_ascii c in ((65 <=? n) && (n <=? 90))%nat.
Definition is_lower (c : ascii) : bool :=
  let n := nat_of_ascii c in ((97 <=? n) && (n <=? 122))%nat.
Definition to_upper (c : ascii) : ascii :=
  if is_lower c then ascii_of_nat (nat_of_ascii c - 32) else c.
Definition to_lower (c : ascii) : ascii :=
  if is_upper c then ascii_of_nat (nat_of_ascii c + 32) else c.

(** [s.title()] on ASCII: a letter is upper-cased after an uncased
    character (or at the start) and lower-cased after a letter. *)
Fixpoint title_aux (prev_cased : bool) (s : string) : string :=
  match s with
  | EmptyString => EmptyString
  | String c r =>
      if is_upper c || is_lower c
      then String (if prev_cased then to_lower c else to_upper c) (title_aux true r)
      else String c (title_aux false r)
  end.

Definition title (s : string) : string := title_aux false s.

(** [col.replace("_", " ").title()] *)
Definition default_label (col : string) : string :=
  title (Process.replace_all "_" " " col).

(** [apply_column_labels] (lines 217-250); [label_df] is the file read by
    [pd.read_csv] or [pd.read_excel] ([Err] when reading raises).  The
    label column is overwritten before the map is built, so when
    [header_col] and [label_col] name the same column the keys are the
    stripped strings too. *)
Definition apply_column_labels (df : table) (label_df : result table)
    (header_col label_col : string) : result (list (string * string)) :=
  ldf <- label_df ;;
  if memb header_col (cols ldf) && memb label_col (cols ldf) then
    (* label_df.dropna(subset=[header_col, label_col]) *)
    let kept :=
      filter (fun row =>
        match rget row header_col, rget row label_col with
        | Some h, Some l => notna h && notna l
        | _, _ => false
        end) (table_records ldf) in
    (* label_df[label_col] = label_df[label_col].astype(str).str.strip() *)
    let cleaned :=
      map (fun row =>
        match rget row label_col with
        | Some l => rset row label_col (VStr (strip (py_str l)))
        | None => row
        end) kept in
    (* dict(zip(label_df[header_col], label_df[label_col])) *)
    let label_map :=
      fold_left (fun m row =>
        match rget row header_col, rget row label_col with
        | Some h, Some l => dict_set value_eqb m h l
        | _, _ => m
        end) cleaned [] in
    Ok (fold_left (fun fm col =>
          dict_set String.eqb fm col
            (match dict_get value_eqb label_map (VStr col) with
             | Some l => py_str l
             | None => default_label col
             end))
          (cols df) [])
  else Err "KeyError".

(** The checks and column exclusion of [write_dataset] (lines 387-397),
    up to the upload; [tab_fields] is [None] without a [tab_config], else
    the configured attachment fields.  The result is the table written to
    the CSV and the upload mode. *)
Definition write_dataset_prepare (df : table) (tab_fields : option (list string))
    (append : option bool) : result (table * string) :=
  match append with
  | None => Err "ValueError"
  | Some a =>
      df' <- match tab_fields with
             | None => Ok df
             | Some attachment_fields =>
                 let exclude_columns :=
                   map (fun f => String.append f "_file") attachment_fields in
                 Attach.select df (filter (fun c => negb (memb c exclude_columns)) (cols df))
             end ;;
      Ok (df', if a then "append" else "clear")
  end.

(** [collect_row_attachments] (lines 454-473); [get_attachment] is the
    download ([Err] when it raises).  Filenames are cells, so NaN (truthy)
    is kept as a filename. *)
Definition collect_row_attachments (row : record) (attachment_fields : list string)
    (get_attachment : string -> result string) : list (value * string) :=
  fold_left (fun acc field =>
    let link := dict_get_default String.eqb row field (VStr "") in
    let stored := dict_get_default String.eqb row (String.append field "_file") (VStr "") in
    let filename := if Labels.truthy (Some stored) then stored
                    else VStr (String.append field ".dat") in
    match link with
    | VStr s =>
        if String.prefix "http" s then
          match get_attachment s with
          | Ok data => acc ++ [(filename, data)]
          | Err _ => acc
          end
        else acc
    | _ => acc
    end) attachment_fields [].

End Pipeline.

(** ** [app.py]: detail and table views *)

Module App.

(** Lines 79-83: [default_cols + detail_cols] without repeats, first
    occurrence kept. *)
Definition configured_cols (default_cols detail_cols : list string) : list string :=
  fold_left (fun acc col => if memb col acc then acc else acc ++ [col])
            (default_cols ++ detail_cols) [].

(** Lines 86-103: the [(label, value)] dict of the selected row.  [row]
    is [full_df.loc[detail_index]]; datetime cells are not modelled, so
    the [strftime] branch never applies. *)
Definition row_display (df : table) (row : record) (default_cols detail_cols : list string)
    (column_labels : list (string * string)) (li : Labels.label_info)
  : result (list (string * value)) :=
  let ordered_cols := filter (fun col => memb col (cols df))
                             (configured_cols default_cols detail_cols) in
  fold_left (fun acc col =>
    d <- acc ;;
    let val := match rget row col with Some v => v | None => VNaN end in
    val <- (if existsb (fun '(k, _) => value_eqb k (VStr col)) (Labels.select_one li)
            then Ok (Labels.get_label col val li)
            else if existsb (fun '(k, _) => value_eqb k (VStr col)) (Labels.select_multiple li)
            then Labels.get_labels_for_multiple col val li
            else Ok val) ;;
    let label := dict_get_default String.eqb column_labels col col in
    Ok (dict_set String.eqb d label val)) ordered_cols (Ok []).

(** Lines 157-160: the items shown, non-missing and non-blank. *)
Definition detail_items (display : list (string * value)) : list (string * value) :=
  filter (fun '(_, v) => notna v && negb (String.eqb (strip (py_str v)) "")) display.

(** [re.sub(r"\\.0$", "", s)]: a backslash, any character but a newline
    and ["0"] at the end (or before a final newline). *)
Definition sub_backslash_any_zero (s : string) : string :=
  match rev (list_ascii_of_string s) with
  | "0" :: c :: "\" :: r =>
      if Ascii.eqb c "010" then s else string_of_list_ascii (rev r)
  | "010" :: "0" :: c :: "\" :: r =>
      if Ascii.eqb c "010" then s else string_of_list_ascii (rev ("010" :: r))
  | _ => s
  end%char.

(** Lines 200-207: one cell of a displayed column.  A select_one cell is
    [astype(str).str.strip().replace(r"\\.0$", "", regex=True)] then
    [.map(label_map.get(list_name, {}))], which gives NaN on a miss; a
    select_multiple cell goes through [get_labels_for_multiple]. *)
Definition table_select_one_cell (li : Labels.label_info) (list_name : string) (v : value)
  : value :=
  match dict_get String.eqb (Labels.choice_list li (Some list_name))
                 (sub_backslash_any_zero (strip (py_str v))) with
  | Some lab => lab
  | None => VNaN
  end.

Definition table_view_cell (li : Labels.label_info) (col : string) (v : value)
  : result value :=
  match dict_get value_eqb (Labels.select_one li) (VStr col) with
  | Some list_name => Ok (table_select_one_cell li list_name v)
  | None =>
      if existsb (fun '(k, _) => value_eqb k (VStr col)) (Labels.select_multiple li)
      then Labels.get_labels_for_multiple col v li
      else Ok v
  end.

End App.

(** * Properties *)

(** ** Dictionary lemmas *)

Section DictLemmas.
Context {K V : Type} (keqb : K -> K -> bool).
Hypothesis keqb_spec : forall a b, keqb a b = true <-> a = b.

Lemma keqb_refl (a : K) : keqb a a = true.
Proof. apply keqb_spec; reflexivity. Qed.

Lemma keqb_neq (a b : K) : a <> b -> keqb a b = false.
Proof.
  intros H; destruct (keqb a b) eqn:E; [|reflexivity].
  apply keqb_spec in E; contradiction.
Qed.

Lemma dict_get_set_same (d : list (K * V)) k v :
  dict_get keqb (dict_set keqb d k v) k = Some v.
Proof.
  induction d as [|[k' v'] r IH]; simpl.
  - rewrite keqb_refl; reflexivity.
  - destruct (keqb k k') eqn:E; simpl.
    + rewrite E; reflexivity.
    + rewrite E; exact IH.
Qed.

Lemma dict_get_set_other (d : list (K * V)) k k2 v :
  k2 <> k -> dict_get keqb (dict_set keqb d k v) k2 = dict_get keqb d k2.
Proof.
  intros Hne; induction d as [|[k' v'] r IH]; simpl.
  - rewrite (keqb_neq _ _ Hne); reflexivity.
  - destruct (keqb k k') eqn:E; simpl.
    + apply keqb_spec in E; subst k'.
      rewrite (keqb_neq _ _ Hne); reflexivity.
    + destruct (keqb k2 k'); [reflexivity | exact IH].
Qed.
End DictLemmas.

Lemma string_eqb_spec (a b : string) : String.eqb a b = true <-> a = b.
Proof. apply String.eqb_eq. Qed.

Lemma rget_rset_same (d : record) k v : rget (rset d k v) k = Some v.
Proof. apply (dict_get_set_same _ string_eqb_spec). Qed.

Lemma rget_rset_other (d : record) k k2 v :
  k2 <> k -> rget (rset d k v) k2 = rget d k2.
Proof. apply (dict_get_set_other _ string_eqb_spec). Qed.

(** ** Role explosion *)

(** [copy_variants] touches exactly the configured prefixes. *)
Lemma copy_variants_fold_get (row : record) (suffix : string) (ps : list string) acc p :
  rget (fold_left (fun acc col_prefix =>
                     match rget row (String.append col_prefix suffix) with
                     | Some v => if notna v then rset acc col_prefix v else acc
                     | None => acc
                     end) ps acc) p
  = if existsb (String.eqb p) ps then
      match rget row (String.append p suffix) with
      | Some v => if notna v then Some v else rget acc p
      | None => rget acc p
      end
    else rget acc p.
Proof.
  revert acc; induction ps as [|q ps IH]; intros acc; simpl; [reflexivity|].
  rewrite IH.
  destruct (String.eqb p q) eqn:Epq; simpl.
  - apply String.eqb_eq in Epq; subst q.
    destruct (existsb (String.eqb p) ps);
      destruct (rget row (String.append p suffix)) as [v|]; try destruct (notna v);
      rewrite ?rget_rset_same; reflexivity.
  - assert (Hne : p <> q) by (apply String.eqb_neq; exact Epq).
    assert (Hacc : rget (match rget row (String.append q suffix) with
                         | Some v => if notna v then rset acc q v else acc
                         | None => acc end) p = rget acc p).
    { destruct (rget row (String.append q suffix)) as [v|]; try destruct (notna v);
        try apply rget_rset_other; auto. }
    rewrite Hacc; reflexivity.
Qed.

Lemma copy_variants_get (row : record) suffix acc p :
  rget (Process.copy_variants row suffix acc) p
  = if existsb (String.eqb p) Process.column_prefixes then
      match rget row (String.append p suffix) with
      | Some v => if notna v then Some v else rget acc p
      | None => rget acc p
      end
    else rget acc p.
Proof. apply copy_variants_fold_get. Qed.

Lemma copy_variants_hire_role (row : record) suffix acc :
  rget (Process.copy_variants row suffix acc) "hire_role" = rget acc "hire_role".
Proof. rewrite copy_variants_get; reflexivity. Qed.

(** The role record of a recognized token carries the assigned role. *)
Lemma explode_role_hire_role (row : record) role suffix r :
  dict_get String.eqb Process.role_suffix_map (strip role) = Some suffix ->
  (if String.eqb (strip role) "Other" then
     o <- Process.role_other_value row ;;
     Ok (VStr (if String.eqb o "" then "Other" else o))
   else Ok (VStr (strip role))) = Ok r ->
  exists out, Process.explode_role row role = Ok [out]
              /\ rget out "hire_role" = Some r.
Proof.
  intros Hs Hr; unfold Process.explode_role; rewrite Hs; cbv zeta.
  rewrite Hr; simpl.
  eexists; split; [reflexivity|].
  rewrite copy_variants_hire_role, rget_rset_same; reflexivity.
Qed.

(** Only the [Other] token can make a token's step raise. *)
Lemma explode_role_ok_iff (row : record) role :
  (exists out, Process.explode_role row role = Ok out)
  <-> (String.eqb (strip role) "Other" = true ->
       exists o, Process.role_other_value row = Ok o).
Proof.
  unfold Process.explode_role; cbv zeta.
  destruct (dict_get String.eqb Process.role_suffix_map (strip role)) as [suffix|] eqn:Es.
  - destruct (String.eqb (strip role) "Other").
    + destruct (Process.role_other_value row) as [o|e]; simpl; split.
      * intros _ _; eauto.
      * intros _; eauto.
      * intros [out H]; discriminate.
      * intros H; destruct (H eq_refl) as [o H']; discriminate.
    + simpl; split; [intros _ H; discriminate | intros _; eauto].
  - split.
    + intros _ H.
      (* "Other" is a key of the suffix map *)
      apply String.eqb_eq in H; rewrite H in Es; discriminate.
    + intros _; eauto.
Qed.

Lemma explode_roles_ok_iff (row : record) roles :
  (exists outs, Process.explode_roles row roles = Ok outs)
  <-> (forall role, In role roles -> exists out, Process.explode_role row role = Ok out).
Proof.
  induction roles as [|t ts IH]; simpl.
  - split; [intros _ t []| intros _; eauto].
  - split.
    + intros [outs H] role [<-|Hin].
      * destruct (Process.explode_role row t) as [a|e]; simpl in H; [eauto|discriminate].
      * destruct (Process.explode_role row t) as [a|e]; simpl in H; [|discriminate].
        destruct (Process.explode_roles row ts) as [b|e] eqn:Eb; simpl in H; [|discriminate].
        apply (proj1 IH); eauto.
    + intros H.
      destruct (H t (or_introl eq_refl)) as [a Ha]; rewrite Ha; simpl.
      destruct (proj2 IH (fun role Hin => H role (or_intror Hin))) as [b Hb].
      rewrite Hb; simpl; eauto.
Qed.

Lemma role_other_value_ok_iff (row : record) :
  (exists o, Process.role_other_value row = Ok o)
  <-> (exists s, dict_get_default String.eqb row "hire_role_other" (VStr "") = VStr s).
Proof.
  unfold Process.role_other_value.
  destruct (dict_get_default String.eqb row "hire_role_other" (VStr "")) as [s|z|];
    split; intros [x H]; try discriminate; eauto.
Qed.

(** C9.  For a record whose roles contain [Other], the explosion of the
    record completes exactly when [row.get("hire_role_other", "")] is a
    string; a missing (NaN) override makes it raise. *)
Theorem explode_row_other_needs_string_override (row : record) :
  In "Other" (Process.roles_of row) ->
  ((exists outs, Process.explode_row row = Ok outs)
   <-> (exists s, dict_get_default String.eqb row "hire_role_other" (VStr "") = VStr s))
  /\ (rget row "hire_role_other" = Some VNaN ->
      exists e, Process.explode_row row = Err e).
Proof.
  intros Hin.
  assert (Hiff : (exists outs, Process.explode_row row = Ok outs)
                 <-> (exists s, dict_get_default String.eqb row "hire_role_other" (VStr "") = VStr s)).
  { unfold Process.explode_row; rewrite explode_roles_ok_iff.
    rewrite <- role_other_value_ok_iff.
    split.
    - intros H. apply (proj1 (explode_role_ok_iff row "Other") (H _ Hin)).
      reflexivity.
    - intros Ho role _. apply (proj2 (explode_role_ok_iff row role)).
      intros _; exact Ho. }
  split; [exact Hiff|].
  intros Hnan.
  destruct (Process.explode_row row) as [outs|e] eqn:E; [|eauto].
  exfalso.
  destruct (proj1 Hiff (ex_intro _ outs eq_refl)) as [s Hs].
  unfold dict_get_default in Hs; unfold rget in Hnan; rewrite Hnan in Hs; discriminate.
Qed.

Lemma explode_row_other_needs_string_override_witness :
  In "Other" (Process.roles_of [("hire_role", VStr "Other"); ("hire_role_other", VNaN)])
  /\ (rget [("hire_role", VStr "Other"); ("hire_role_other", VNaN)] "hire_role_other" = Some VNaN ->
      exists e, Process.explode_row [("hire_role", VStr "Other"); ("hire_role_other", VNaN)] = Err e).
Proof.
  split.
  - vm_compute; left; reflexivity.
  - apply (explode_row_other_needs_string_override
             [("hire_role", VStr "Other"); ("hire_role_other", VNaN)]).
    vm_compute; left; reflexivity.
Defined.

(** C2.  A one-row table whose [hire_role] is ["RA Other"] and whose
    [hire_role_other] is empty explodes into exactly two records, with
    roles ["RA"] and ["Other"] (the literal fallback), whatever its other
    columns hold. *)
Theorem explode_RA_Other_blank_override (cs : list string) (vs : list value) :
  exists a b,
    Process.explode (table_records (mk_table ("hire_role" :: "hire_role_other" :: cs)
                                             [VStr "RA Other" :: VStr "" :: vs]))
    = Ok [a; b]
    /\ rget a "hire_role" = Some (VStr "RA")
    /\ rget b "hire_role" = Some (VStr "Other").
Proof.
  set (row := ("hire_role", VStr "RA Other") :: ("hire_role_other", VStr "")
                :: combine cs vs).
  destruct (explode_role_hire_role row "RA" "_ra" (VStr "RA")) as [a [Ha1 Ha2]];
    [vm_compute; reflexivity | vm_compute; reflexivity |].
  destruct (explode_role_hire_role row "Other" "" (VStr "Other")) as [b [Hb1 Hb2]];
    [vm_compute; reflexivity | vm_compute; reflexivity |].
  exists a, b; split; [|split; assumption].
  change (Process.explode [row] = Ok [a; b]).
  unfold Process.explode, Process.explode_row.
  replace (Process.roles_of row) with ["RA"; "Other"] by (vm_compute; reflexivity).
  cbn [Process.explode_roles Process.explode].
  rewrite Ha1, Hb1. reflexivity.
Qed.

(** ** Label metadata and lookups *)

(** C10.  [apply_scto_cleaning] returns the table it was given as the first
    component of its result; only the label metadata is built. *)
Theorem apply_scto_cleaning_keeps_table (df : table) (survey_def choices_def : result table)
    (df' : table) (li : Labels.label_info) :
  Labels.apply_scto_cleaning df survey_def choices_def = Ok (df', li) -> df' = df.
Proof.
  unfold Labels.apply_scto_cleaning.
  destruct survey_def as [survey|e]; simpl; [|discriminate].
  destruct choices_def as [choices|e]; simpl; [|discriminate].
  destruct (Labels.classify_fields (table_records survey)) as [one multi].
  destruct (Labels.build_label_map choices) as [lm|e]; simpl; [|discriminate].
  intros H; inversion H; reflexivity.
Qed.

Definition sample_survey : table :=
  mk_table ["type"; "name"]
    [[VStr "select_one yesno"; VStr "consent"];
     [VStr "select_multiple langs"; VStr "language"];
     [VStr "text"; VStr "pi_name"]].

Definition sample_choices : table :=
  mk_table ["list_name"; "value"; "label"]
    [[VStr "yesno"; VInt 1; VStr "Yes"];
     [VStr "yesno"; VInt 0; VStr "No"];
     [VStr "langs"; VStr "a"; VStr "Stata"]].

Definition sample_df : table :=
  mk_table ["KEY"; "consent"] [[VStr "uuid:1"; VInt 1]].

Lemma apply_scto_cleaning_keeps_table_witness :
  Labels.apply_scto_cleaning sample_df (Ok sample_survey) (Ok sample_choices)
  = Ok (sample_df,
        Labels.mk_label_info [(VStr "consent", "yesno")] [(VStr "language", "langs")]
          [(VStr "yesno", [("1", VStr "Yes"); ("0", VStr "No")]);
           (VStr "langs", [("a", VStr "Stata")])])
  /\ sample_df = sample_df.
Proof.
  split; [vm_compute; reflexivity|].
  apply (apply_scto_cleaning_keeps_table sample_df (Ok sample_survey) (Ok sample_choices)
           sample_df
           (Labels.mk_label_info [(VStr "consent", "yesno")] [(VStr "language", "langs")]
              [(VStr "yesno", [("1", VStr "Yes"); ("0", VStr "No")]);
               (VStr "langs", [("a", VStr "Stata")])])).
  vm_compute; reflexivity.
Defined.

(** The choice list bound to a single-choice field. *)
Definition select_one_list (field : string) (li : Labels.label_info) : list (string * value) :=
  Labels.choice_list li (dict_get value_eqb (Labels.select_one li) (VStr field)).

(** Single-choice idempotence as the spec states it: resolving a code of
    the field's choice list twice gives the same as resolving it once. *)
Definition get_label_idempotent_on_codes : Prop :=
  forall (field code : string) (li : Labels.label_info),
    (exists lab, dict_get String.eqb (select_one_list field li) code = Some lab) ->
    Labels.get_label field (Labels.get_label field (VStr code) li) li
    = Labels.get_label field (VStr code) li.

(** A choice list whose labels are themselves codes of the list. *)
Definition chained_labels : Labels.label_info :=
  Labels.mk_label_info [(VStr "grade", "levels")] []
    [(VStr "levels", [("1", VStr "2"); ("2", VStr "3")])].

(** C8 (counterexample).  Code ["1"] resolves to ["2"], which is itself a
    code of the list and resolves further to ["3"]. *)
Lemma get_label_not_idempotent : ~ get_label_idempotent_on_codes.
Proof.
  intros H.
  specialize (H "grade" "1" chained_labels (ex_intro _ (VStr "2") eq_refl)).
  vm_compute in H; discriminate.
Qed.

(** C8 (amended).  Resolving twice equals resolving once for a code of the
    field's choice list whose label, as a stripped string, is not a code of
    that list mapped to a different label. *)
Theorem get_label_idempotent_when_label_not_recoded
    (field : string) (code : value) (li : Labels.label_info) (lab : value) :
  dict_get String.eqb (select_one_list field li) (strip (py_str code)) = Some lab ->
  (dict_get String.eqb (select_one_list field li) (strip (py_str lab)) = None
   \/ dict_get String.eqb (select_one_list field li) (strip (py_str lab)) = Some lab) ->
  Labels.get_label field (Labels.get_label field code li) li = Labels.get_label field code li.
Proof.
  unfold Labels.get_label, dict_get_default; fold (select_one_list field li).
  intros Hcode Hlab; rewrite Hcode.
  destruct Hlab as [Hlab|Hlab]; rewrite Hlab; reflexivity.
Qed.

Definition yes_no_labels : Labels.label_info :=
  Labels.mk_label_info [(VStr "consent", "yesno")] []
    [(VStr "yesno", [("1", VStr "Yes"); ("0", VStr "No")])].

Lemma get_label_idempotent_when_label_not_recoded_witness :
  Labels.get_label "consent" (Labels.get_label "consent" (VInt 1) yes_no_labels) yes_no_labels
  = VStr "Yes".
Proof.
  rewrite (get_label_idempotent_when_label_not_recoded "consent" (VInt 1) yes_no_labels (VStr "Yes"));
    [vm_compute; reflexivity | vm_compute; reflexivity | left; vm_compute; reflexivity].
Defined.

(** ** Attachment merge *)

(** C6.  When the secondary fetch raises, or the join key is missing from
    the primary or from the secondary table, [merge_attachments] returns
    the primary table unchanged (the function is total: nothing is raised). *)
Theorem merge_attachments_skips_on_failure
    (df_main : table) (fc : Attach.form_cfg) (attachment_fields : list string)
    (fetch : string -> result table) :
  ((exists e, fetch (Attach.form_id fc) = Err e)
   \/ (exists df_form, fetch (Attach.form_id fc) = Ok df_form
       /\ (memb (Attach.match_on fc) (cols df_main) = false
           \/ memb (Attach.match_on fc) (cols df_form) = false))) ->
  Attach.merge_attachments df_main (Attach.mk_attach_cfg (Some fc) attachment_fields) fetch
  = df_main.
Proof.
  intros [[e He] | [df_form [Hf [Hm | Hm]]]];
    unfold Attach.merge_attachments; simpl.
  - rewrite He; reflexivity.
  - rewrite Hf, Hm; reflexivity.
  - rewrite Hf, Hm, andb_false_r; reflexivity.
Qed.

Definition sample_primary : table :=
  mk_table ["KEY"; "cv"] [[VStr "uuid:1"; VStr "https://x/cv.pdf"]].

Definition sample_form_cfg : Attach.form_cfg := Attach.mk_form_cfg "uploads" "email".

Definition sample_fetch (form : string) : result table :=
  Ok (mk_table ["email"; "cv"] [[VStr "a@b.org"; VStr "https://x/cv2.pdf"]]).

Lemma merge_attachments_skips_on_failure_witness :
  Attach.merge_attachments sample_primary (Attach.mk_attach_cfg (Some sample_form_cfg) ["cv"])
    sample_fetch = sample_primary.
Proof.
  apply merge_attachments_skips_on_failure.
  right; exists (mk_table ["email"; "cv"] [[VStr "a@b.org"; VStr "https://x/cv2.pdf"]]).
  split; [reflexivity | left; vm_compute; reflexivity].
Defined.

(** The merge's no-duplicate-columns guarantee as the spec states it. *)
Definition merge_never_duplicates : Prop :=
  forall df_main cfg fetch, NoDup (cols (Attach.merge_attachments df_main cfg fetch)).

Definition dup_primary : table :=
  mk_table ["KEY"; "cv"; "cv_file"]
    [[VStr "uuid:1"; VStr "https://x/old.pdf"; VStr "old.pdf"]].

Definition dup_cfg : Attach.attach_cfg :=
  Attach.mk_attach_cfg (Some (Attach.mk_form_cfg "uploads" "KEY")) ["cv"; "photo"].

Definition dup_fetch (form : string) : result table :=
  Ok (mk_table ["KEY"; "cv"; "photo"]
        [[VStr "uuid:1"; VStr "https://x/cv.pdf"; VStr "https://x/p.jpg"]]).

(** C5 (failing input).  A primary table that already has [cv] and
    [cv_file] (merge triggered because [photo_file] is missing): renaming
    [cv] to [cv_file] duplicates that column in the merged table. *)
Theorem merge_attachments_duplicate_file_column :
  Attach.needs_merge dup_primary (Attach.fields dup_cfg) = true
  /\ cols (Attach.merge_attachments dup_primary dup_cfg dup_fetch)
     = ["KEY"; "cv_file"; "cv_file"; "cv"; "photo"]
  /\ ~ merge_never_duplicates.
Proof.
  split; [vm_compute; reflexivity|].
  split; [vm_compute; reflexivity|].
  intros H; specialize (H dup_primary dup_cfg dup_fetch).
  vm_compute in H.
  inversion H as [|x l Hx Hl]; subst.
  inversion Hl as [|y l' Hy Hl']; subst.
  apply Hy; left; reflexivity.
Qed.

(** ** Role explosion: the Other override *)

Definition other_nan_row : record :=
  [("hire_role", VStr "RA Other"); ("hire_role_other", VNaN);
   ("number_role_ra", VInt 1); ("number_role", VInt 2)].

(** C1 (failing input).  A record with the two recognized tokens [RA] and
    [Other] whose [hire_role_other] cell is missing (NaN, as [read_csv]
    gives for an empty cell): [.strip()] on NaN raises, so the record
    yields no output records at all (and the script is aborted). *)
Theorem explode_row_other_nan_override_raises :
  Process.roles_of other_nan_row = ["RA"; "Other"]
  /\ Process.explode_row other_nan_row = Err "AttributeError".
Proof. split; vm_compute; reflexivity. Qed.

(** What the explosion should produce, after the spec: the suffixes of the
    recognized tokens, in order, and for a suffix the non-missing
    [prefix+suffix] value of the source record. *)
Definition suffix_of (role : string) : list string :=
  match dict_get String.eqb Process.role_suffix_map (strip role) with
  | Some suffix => [suffix]
  | None => []
  end.

Definition selected (row : record) (suffix p : string) : option value :=
  match rget row (String.append p suffix) with
  | Some v => if notna v then Some v else None
  | None => None
  end.

Lemma copy_base_fold_get (row : record) (cs : list string) acc p :
  existsb (String.eqb p) cs = false ->
  rget (fold_left (fun acc col => match rget row col with
                                  | Some v => rset acc col v
                                  | None => acc
                                  end) cs acc) p = rget acc p.
Proof.
  revert acc; induction cs as [|c cs IH]; intros acc; simpl; [reflexivity|].
  intros H; apply orb_false_iff in H; destruct H as [Hc Hcs].
  rewrite IH by exact Hcs.
  destruct (rget row c) as [v|]; [|reflexivity].
  apply rget_rset_other, String.eqb_neq; exact Hc.
Qed.

Lemma prefix_not_base (p : string) :
  In p Process.column_prefixes ->
  existsb (String.eqb p) Process.base_columns = false /\ p <> "hire_role".
Proof.
  intros H; simpl in H.
  repeat (destruct H as [<-|H]; [split; [reflexivity | discriminate] |]).
  contradiction.
Qed.

Lemma explode_role_columns (row : record) role outs :
  Process.explode_role row role = Ok outs ->
  Forall2 (fun suffix out => forall p, In p Process.column_prefixes ->
                                       rget out p = selected row suffix p)
          (suffix_of role) outs.
Proof.
  unfold Process.explode_role, suffix_of; cbv zeta.
  destruct (dict_get String.eqb Process.role_suffix_map (strip role)) as [suffix|].
  - destruct (if String.eqb (strip role) "Other" then _ else _) as [r|e];
      simpl; intros H; inversion H; subst; clear H.
    constructor; [|constructor].
    intros p Hp; destruct (prefix_not_base p Hp) as [Hb Hh].
    rewrite copy_variants_get.
    assert (Hin : existsb (String.eqb p) Process.column_prefixes = true).
    { apply existsb_exists; exists p; split; [exact Hp | apply String.eqb_refl]. }
    rewrite Hin; unfold selected.
    rewrite rget_rset_other by exact Hh.
    unfold Process.copy_base; rewrite copy_base_fold_get by exact Hb.
    destruct (rget row (String.append p suffix)) as [v|]; [destruct (notna v)|]; reflexivity.
  - intros H; inversion H; constructor.
Qed.

(** The explosion of a record yields, in order, one record per recognized
    role token, each holding under every configured prefix the non-missing
    value of the source's [prefix+suffix] column and nothing otherwise;
    the count is the number of recognized tokens. *)
Lemma explode_row_columns (row : record) outs :
  Process.explode_row row = Ok outs ->
  Forall2 (fun suffix out => forall p, In p Process.column_prefixes ->
                                       rget out p = selected row suffix p)
          (flat_map suffix_of (Process.roles_of row)) outs
  /\ length outs = length (flat_map suffix_of (Process.roles_of row)).
Proof.
  intros H.
  assert (HF : Forall2 (fun suffix out => forall p, In p Process.column_prefixes ->
                                                     rget out p = selected row suffix p)
                       (flat_map suffix_of (Process.roles_of row)) outs).
  { unfold Process.explode_row in H; revert outs H.
    induction (Process.roles_of row) as [|t ts IH]; simpl; intros outs H.
    - inversion H; constructor.
    - destruct (Process.explode_role row t) as [a|e] eqn:Ea; simpl in H; [|discriminate].
      destruct (Process.explode_roles row ts) as [b|e] eqn:Eb; simpl in H; [|discriminate].
      inversion H; subst.
      apply Forall2_app; [apply explode_role_columns; exact Ea | apply IH; reflexivity]. }
  split; [exact HF|].
  symmetry; eapply Forall2_length; exact HF.
Qed.

(** With a string (or absent) override the explosion does complete. *)
Lemma explode_row_total_with_string_override (row : record) s :
  dict_get_default String.eqb row "hire_role_other" (VStr "") = VStr s ->
  exists outs, Process.explode_row row = Ok outs.
Proof.
  intros Hs; unfold Process.explode_row; apply explode_roles_ok_iff.
  intros role _; apply explode_role_ok_iff; intros _.
  apply role_other_value_ok_iff; eauto.
Qed.

(** ** Location normalization *)

Lemma insert_by_len_In (x y : string) (l : list string) :
  In y (Process.insert_by_len x l) <-> y = x \/ In y l.
Proof.
  induction l as [|z l IH]; simpl.
  - intuition.
  - destruct (Process.py_len z <? Process.py_len x)%nat; simpl.
    + intuition.
    + rewrite IH; intuition.
Qed.

Lemma sort_fold_In (y : string) (l acc : list string) :
  In y (fold_left (fun acc x => Process.insert_by_len x acc) l acc) <-> In y l \/ In y acc.
Proof.
  revert acc; induction l as [|x l IH]; intros acc; simpl.
  - intuition.
  - rewrite IH, insert_by_len_In; intuition.
Qed.

Lemma sort_by_len_desc_In (y : string) (l : list string) :
  In y (Process.sort_by_len_desc l) <-> In y l.
Proof. unfold Process.sort_by_len_desc; rewrite sort_fold_In; simpl; intuition. Qed.

Lemma matched_names_In (countries : list string) (text : value) (name : string) :
  In name (Process.matched_names countries text)
  <-> (In name countries \/ name = "Global") /\ substringb name (py_str text) = true.
Proof.
  unfold Process.matched_names; rewrite filter_In, sort_by_len_desc_In, in_app_iff.
  simpl; intuition.
Qed.

(** C3 (failing input).  With both [Niger] and [Nigeria] in the catalog
    (both are pycountry names), the text ["Nigeria"] is normalized to a
    list holding [Nigeria] and also [Niger], which only occurs inside the
    longer match: sorting longest-first does not remove it. *)
Theorem normalize_location_keeps_inner_name (countries : list string) :
  In "Niger" countries -> In "Nigeria" countries ->
  In "Nigeria" (Process.matched_names countries (VStr "Nigeria"))
  /\ In "Niger" (Process.matched_names countries (VStr "Nigeria")).
Proof.
  intros H1 H2; rewrite !matched_names_In; split; split; auto.
Qed.

Lemma normalize_location_keeps_inner_name_witness :
  Process.normalize_location ["Nigeria"; "Niger"] (VStr "Nigeria") = "Nigeria, Niger"
  /\ In "Nigeria" (Process.matched_names ["Nigeria"; "Niger"] (VStr "Nigeria"))
  /\ In "Niger" (Process.matched_names ["Nigeria"; "Niger"] (VStr "Nigeria")).
Proof.
  split; [vm_compute; reflexivity|].
  apply normalize_location_keeps_inner_name; simpl; auto.
Defined.

(** ** Numeric coercion inside the custom-script runner *)

Lemma map_result_err {A B} (f : A -> result B) (xs : list A) (x : A) :
  In x xs -> (exists e, f x = Err e) -> exists e, map_result f xs = Err e.
Proof.
  induction xs as [|y xs IH]; simpl; [intros []|].
  intros [<-|Hin] [e He].
  - rewrite He; simpl; eauto.
  - destruct (f y) as [b|e']; simpl; [|eauto].
    destruct (IH Hin (ex_intro _ e He)) as [e'' He'']; rewrite He''; simpl; eauto.
Qed.

Lemma column_apply_err (t : table) (c : string) (f : value -> result value) vs v :
  column t c = Some vs -> In v vs -> (exists e, f v = Err e) ->
  exists e, column_apply t c f = Err e.
Proof.
  unfold column, column_apply.
  destruct (col_index (cols t) c) as [i|]; [|discriminate].
  intros Hc Hin [e He]; inversion Hc; subst vs.
  apply in_map_iff in Hin; destruct Hin as [r [Hv Hr]].
  destruct (map_result_err (fun r => v <- f (nth i r VNaN) ;;
                                     Ok (firstn i r ++ v :: skipn (S i) r)) (rows t) r Hr)
    as [e' He'].
  - rewrite Hv, He; simpl; eauto.
  - rewrite He'; simpl; eauto.
Qed.

Lemma map_result_err_from {A B} (f : A -> result B) (xs : list A) (e : string) :
  map_result f xs = Err e -> exists x, In x xs /\ f x = Err e.
Proof.
  induction xs as [|y xs IH]; simpl; [discriminate|].
  destruct (f y) as [b|e'] eqn:Ey; simpl.
  - destruct (map_result f xs) as [bs|e''] eqn:Er; simpl; [discriminate|].
    intros H; injection H as <-; destruct (IH eq_refl) as [x [Hx Hf]]; eauto.
  - intros H; injection H as <-; eauto.
Qed.

(** An error of [df[c] = f(df[c])] is the [KeyError] of a missing column
    or an error of [f] on some cell. *)
Lemma column_apply_err_from (t : table) (c : string) (f : value -> result value) e :
  column_apply t c f = Err e -> e = "KeyError" \/ exists v, f v = Err e.
Proof.
  unfold column_apply; destruct (col_index (cols t) c) as [i|];
    [|intros H; injection H as <-; left; reflexivity].
  destruct (map_result _ (rows t)) as [rs|e'] eqn:E; simpl; [discriminate|].
  intros H; injection H as <-.
  destruct (map_result_err_from _ _ _ E) as [r [_ Hr]]; right.
  destruct (f (nth i r VNaN)) as [w|e''] eqn:Ef; simpl in Hr; [discriminate|].
  injection Hr as <-; eauto.
Qed.

(** [astype(int)] raises [ValueError] or [OverflowError] only. *)
Lemma astype_int_cell_err (v : value) (e : string) :
  Process.astype_int_cell v = Err e -> e = "ValueError" \/ e = "OverflowError".
Proof.
  assert (H64 : forall z, Process.to_int64 z = Err e -> e = "OverflowError").
  { intros z; unfold Process.to_int64; destruct (_ && _); [discriminate|].
    intros H; injection H as <-; reflexivity. }
  unfold Process.astype_int_cell; destruct v as [s|z|].
  - destruct (Process.py_int_of_string s) as [z|]; [right; apply (H64 z), H|].
    intros H; injection H as <-; left; reflexivity.
  - intros H; right; apply (H64 z), H.
  - intros H; injection H as <-; left; reflexivity.
Qed.

(** [astype(int)] yields [int64] integers only. *)
Lemma astype_int_cell_ok (v w : value) :
  Process.astype_int_cell v = Ok w ->
  exists z, w = VInt z /\ (Process.int64_min <= z <= Process.int64_max)%Z.
Proof.
  assert (H64 : forall z, Process.to_int64 z = Ok w ->
                exists z, w = VInt z /\ (Process.int64_min <= z <= Process.int64_max)%Z).
  { intros z; unfold Process.to_int64; destruct (_ && _) eqn:E; [|discriminate].
    intros H; injection H as <-; apply andb_true_iff in E; rewrite !Z.leb_le in E; eauto. }
  unfold Process.astype_int_cell; destruct v as [s|z|].
  - destruct (Process.py_int_of_string s) as [z|]; [apply H64|discriminate].
  - apply H64.
  - discriminate.
Qed.

(** The spec's reading: a non-numeric [number_role] in the exploded table
    makes the pipeline run fail with an error reaching the caller. *)
Definition coercion_error_surfaces : Prop :=
  forall countries df df2 vs v,
    Process.process_stage1 countries df = Ok df2 ->
    column df2 "number_role" = Some vs -> In v vs -> Process.non_numeric v = true ->
    exists e, run_specific_scripts [Process.process_script countries] df = Err e.

Definition bad_count_df : table :=
  mk_table ["KEY"; "hire_role"; "number_role_ra"; "hire_position_location_ra"; "pi_add"]
    [[VStr "uuid:1"; VStr "RA"; VStr "two"; VStr "Kenya"; VStr "Yes"]].

(** C4 (counterexample).  With [number_role_ra = "two"], the exploded table
    has a non-numeric [number_role], but [run_specific_scripts] catches the
    error and hands back the un-exploded table: no error reaches the
    caller. *)
Lemma coercion_error_caught : ~ coercion_error_surfaces.
Proof.
  intros H.
  destruct (H ["Kenya"] bad_count_df
              (mk_table ["pi_add"; "hire_role"; "KEY"; "number_role"; "hire_position_location"]
                 [[VStr "Yes"; VStr "RA"; VStr "uuid:1"; VStr "two"; VStr "Kenya"]])
              [VStr "two"] (VStr "two")) as [e He].
  - vm_compute; reflexivity.
  - vm_compute; reflexivity.
  - left; reflexivity.
  - vm_compute; reflexivity.
  - vm_compute in He; discriminate.
Qed.

(** C4 (amended).  When the coercion meets a non-numeric value the script
    raises, and [run_specific_scripts] catches it and returns the table
    the script received: the run goes on without the script's effect. *)
Theorem coercion_error_skips_script
    (countries : list string) (df df2 : table) (vs : list value) (v : value) :
  Process.process_stage1 countries df = Ok df2 ->
  column df2 "number_role" = Some vs -> In v vs -> Process.non_numeric v = true ->
  (exists e, Process.process_script countries df = Err e)
  /\ run_specific_scripts [Process.process_script countries] df = Ok df.
Proof.
  intros H1 Hc Hin Hnn.
  destruct (column_apply_err df2 "number_role" Process.astype_int_cell vs v Hc Hin) as [e He].
  { unfold Process.non_numeric in Hnn.
    destruct (Process.astype_int_cell v) as [a|e]; [discriminate|eauto]. }
  assert (Hs : Process.process_script countries df = Err e).
  { unfold Process.process_script; rewrite H1; simpl; rewrite He; reflexivity. }
  assert (Hcaught : caught_by_except_exception e = true).
  { destruct (column_apply_err_from _ _ _ _ He) as [-> | [w Hw]]; [reflexivity|].
    destruct (astype_int_cell_err _ _ Hw) as [-> | ->]; reflexivity. }
  split; [eauto|].
  simpl; rewrite Hs; simpl; rewrite Hcaught; reflexivity.
Qed.

Lemma coercion_error_skips_script_witness :
  (exists e, Process.process_script ["Kenya"] bad_count_df = Err e)
  /\ run_specific_scripts [Process.process_script ["Kenya"]] bad_count_df = Ok bad_count_df.
Proof.
  apply (coercion_error_skips_script ["Kenya"] bad_count_df
           (mk_table ["pi_add"; "hire_role"; "KEY"; "number_role"; "hire_position_location"]
              [[VStr "Yes"; VStr "RA"; VStr "uuid:1"; VStr "two"; VStr "Kenya"]])
           [VStr "two"] (VStr "two"));
    [vm_compute; reflexivity | vm_compute; reflexivity | left; reflexivity
    | vm_compute; reflexivity].
Defined.

(** ** Multi-choice labels *)

Definition cohort_survey : table :=
  mk_table ["type"; "name"] [[VStr "select_multiple years"; VStr "cohort"]].

(** A choices sheet whose label cells are numbers, as [read_excel] gives
    for numeric cells. *)
Definition cohort_choices : table :=
  mk_table ["list_name"; "value"; "label"]
    [[VStr "years"; VInt 1; VInt 2020]; [VStr "years"; VInt 2; VInt 2021]].

(** C7 (failing input).  With label metadata built by [apply_scto_cleaning]
    from that sheet, resolving ["1 2"] hits the numeric labels and
    [" | ".join] raises [TypeError] instead of giving ["2020 | 2021"]. *)
Theorem get_labels_for_multiple_numeric_labels_raise :
  exists li,
    Labels.apply_scto_cleaning sample_df (Ok cohort_survey) (Ok cohort_choices)
    = Ok (sample_df, li)
    /\ Labels.get_labels_for_multiple "cohort" (VStr "1 2") li = Err "TypeError".
Proof. eexists; split; vm_compute; reflexivity. Qed.

Definition fruit_labels : Labels.label_info :=
  Labels.mk_label_info [] [(VStr "fruits", "fruit")]
    [(VStr "fruit", [("a", VStr "Apple"); ("b", VStr "Banana")])].

(** The spec's example: ["b a"] resolves to ["Banana | Apple"]. *)
Example get_labels_for_multiple_example :
  Labels.get_labels_for_multiple "fruits" (VStr "b a") fruit_labels
  = Ok (VStr "Banana | Apple").
Proof. vm_compute; reflexivity. Qed.

(** ** Whitespace splitting *)

Definition nospace (s : string) : bool :=
  forallb (fun c => negb (is_space c)) (list_ascii_of_string s).

Lemma list_ascii_of_string_append (a b : string) :
  list_ascii_of_string (String.append a b) = list_ascii_of_string a ++ list_ascii_of_string b.
Proof. induction a as [|c a IH]; simpl; [reflexivity | rewrite IH; reflexivity]. Qed.

Lemma rev_string_involutive (s : string) : rev_string (rev_string s) = s.
Proof.
  unfold rev_string.
  rewrite list_ascii_of_string_of_list_ascii, rev_involutive, string_of_list_ascii_of_string.
  reflexivity.
Qed.

Lemma lstrip_nospace (s : string) : nospace s = true -> lstrip s = s.
Proof.
  destruct s as [|c r]; simpl; [reflexivity|].
  intros H; apply andb_true_iff in H; destruct H as [Hc _].
  destruct (is_space c); [discriminate | reflexivity].
Qed.

Lemma strip_nospace (s : string) : nospace s = true -> strip s = s.
Proof.
  intros H; unfold strip; rewrite (lstrip_nospace s H).
  rewrite lstrip_nospace; [apply rev_string_involutive|].
  unfold nospace, rev_string in *.
  rewrite list_ascii_of_string_of_list_ascii.
  apply forallb_forall; intros c Hc; apply in_rev in Hc.
  exact (proj1 (forallb_forall _ _) H c Hc).
Qed.

(** Leading whitespace is skipped by [split]. *)
Lemma split_ws_lstrip (s : string) : split_ws_aux (lstrip s) [] = split_ws_aux s [].
Proof.
  induction s as [|c r IH]; simpl; [reflexivity|].
  destruct (is_space c) eqn:E; [exact IH | simpl; rewrite E; reflexivity].
Qed.

Definition all_space (l : list ascii) : bool := forallb is_space l.

Lemma split_ws_trailing (x sp : list ascii) cur :
  all_space sp = true ->
  split_ws_aux (string_of_list_ascii (x ++ sp)) cur = split_ws_aux (string_of_list_ascii x) cur.
Proof.
  intros Hsp; revert cur; induction x as [|c x IH]; intros cur; simpl.
  - revert cur; induction sp as [|d sp IHsp]; intros cur; simpl; [reflexivity|].
    simpl in Hsp; apply andb_true_iff in Hsp; destruct Hsp as [Hd Hsp].
    rewrite Hd; destruct cur as [|e cur].
    + rewrite IHsp by exact Hsp; reflexivity.
    + rewrite IHsp by exact Hsp; reflexivity.
  - destruct (is_space c); [destruct cur|]; rewrite ?IH; reflexivity.
Qed.

Lemma lstrip_decompose (s : string) :
  exists sp, all_space sp = true
             /\ list_ascii_of_string s = sp ++ list_ascii_of_string (lstrip s).
Proof.
  induction s as [|c r IH]; simpl.
  - exists []; split; reflexivity.
  - destruct (is_space c) eqn:E.
    + destruct IH as [sp [Hsp Hr]]; exists (c :: sp); simpl; rewrite E, Hsp, Hr.
      split; reflexivity.
    + exists []; split; reflexivity.
Qed.

Lemma all_space_rev (l : list ascii) : all_space l = true -> all_space (rev l) = true.
Proof.
  unfold all_space; intros H; apply forallb_forall; intros c Hc.
  apply in_rev in Hc; exact (proj1 (forallb_forall _ _) H c Hc).
Qed.

Lemma list_ascii_of_rev_string (s : string) :
  list_ascii_of_string (rev_string s) = rev (list_ascii_of_string s).
Proof. unfold rev_string; apply list_ascii_of_string_of_list_ascii. Qed.

(** [s.strip().split() == s.split()] *)
Lemma split_ws_strip (s : string) : split_ws (strip s) = split_ws s.
Proof.
  unfold split_ws, strip.
  rewrite <- (split_ws_lstrip s).
  set (t := lstrip s).
  destruct (lstrip_decompose (rev_string t)) as [sp [Hsp Hu]].
  rewrite list_ascii_of_rev_string in Hu.
  set (u := rev_string t) in *.
  unfold rev_string.
  rewrite <- (split_ws_trailing _ (rev sp) [] (all_space_rev sp Hsp)).
  rewrite <- rev_app_distr, <- Hu, rev_involutive, string_of_list_ascii_of_string.
  reflexivity.
Qed.

Lemma split_ws_aux_nospace_prefix (t r : string) cur :
  nospace t = true ->
  split_ws_aux (String.append t r) cur = split_ws_aux r (rev (list_ascii_of_string t) ++ cur).
Proof.
  revert cur; induction t as [|c t IH]; intros cur; simpl; [reflexivity|].
  intros H; apply andb_true_iff in H; destruct H as [Hc Ht].
  destruct (is_space c); [discriminate|].
  rewrite IH by exact Ht; rewrite <- app_assoc; reflexivity.
Qed.

Lemma append_empty_r (s : string) : String.append s EmptyString = s.
Proof. induction s as [|c s IH]; simpl; [reflexivity | rewrite IH; reflexivity]. Qed.

Lemma split_ws_aux_space (x : string) c l :
  split_ws_aux (String.append " " x) (c :: l)
  = string_of_list_ascii (rev (c :: l)) :: split_ws_aux x [].
Proof. reflexivity. Qed.

Definition token (t : string) : Prop := t <> EmptyString /\ nospace t = true.

Lemma token_chars_nonempty (t : string) : token t -> rev (list_ascii_of_string t) <> [].
Proof.
  intros [Hne _] H; apply Hne.
  destruct t as [|c t]; [reflexivity|].
  simpl in H; destruct (rev (list_ascii_of_string t)); discriminate.
Qed.

(** Splitting tokens joined by single spaces gives the tokens back. *)
Lemma split_ws_join (cs : list string) :
  Forall token cs -> split_ws (join " " cs) = cs.
Proof.
  unfold split_ws, join; induction cs as [|t cs IH]; intros Hcs; [reflexivity|].
  inversion Hcs as [|t' cs' Ht Hcs']; subst.
  destruct cs as [|t2 cs].
  - simpl String.concat.
    rewrite <- (append_empty_r t) at 1.
    rewrite split_ws_aux_nospace_prefix by apply Ht; rewrite app_nil_r; simpl.
    destruct (rev (list_ascii_of_string t)) as [|c l] eqn:E;
      [exfalso; exact (token_chars_nonempty t Ht E)|].
    rewrite <- E, rev_involutive, string_of_list_ascii_of_string; reflexivity.
  - change (String.concat " " (t :: t2 :: cs))
      with (String.append t (String.append " " (String.concat " " (t2 :: cs)))).
    rewrite split_ws_aux_nospace_prefix by apply Ht; rewrite app_nil_r.
    destruct (rev (list_ascii_of_string t)) as [|c l] eqn:E;
      [exfalso; exact (token_chars_nonempty t Ht E)|].
    rewrite split_ws_aux_space.
    rewrite <- E, rev_involutive, string_of_list_ascii_of_string, IH by exact Hcs'.
    reflexivity.
Qed.

(** ** Multi-choice labels with string labels *)

Definition label_or_code (lst : list (string * value)) (code : string) : string :=
  match dict_get String.eqb lst code with
  | Some (VStr l) => l
  | _ => code
  end.

Lemma strings_of_labels (lst : list (string * value)) (cs : list string) :
  (forall c lab, In c cs -> dict_get String.eqb lst c = Some lab -> exists l, lab = VStr l) ->
  Labels.strings_of (map (fun code => dict_get_default String.eqb lst code (VStr code)) cs)
  = Ok (map (label_or_code lst) cs).
Proof.
  induction cs as [|c cs IH]; intros H; [reflexivity|].
  assert (Hc : exists l, dict_get_default String.eqb lst c (VStr c) = VStr l
                         /\ label_or_code lst c = l).
  { unfold dict_get_default, label_or_code.
    destruct (dict_get String.eqb lst c) as [lab|] eqn:E; [|eauto].
    destruct (H c lab (or_introl eq_refl) E) as [l ->]; eauto. }
  destruct Hc as [l [Hc Hl]].
  cbn [map]; rewrite Hc; cbn [Labels.strings_of].
  rewrite IH by (intros c' lab' Hin; apply H; right; exact Hin).
  cbn [bind]; rewrite Hl; reflexivity.
Qed.

(** Every piece of [s.split()] is free of whitespace. *)
Lemma split_ws_aux_nospace (s : string) (cur : list ascii) :
  forallb (fun c => negb (is_space c)) cur = true ->
  Forall (fun t => nospace t = true) (split_ws_aux s cur).
Proof.
  assert (Htok : forall cur, forallb (fun c => negb (is_space c)) cur = true ->
                 nospace (string_of_list_ascii (rev cur)) = true).
  { intros cur' H; unfold nospace; rewrite list_ascii_of_string_of_list_ascii.
    apply forallb_forall; intros c Hc; apply in_rev in Hc.
    exact (proj1 (forallb_forall _ _) H c Hc). }
  revert cur; induction s as [|c r IH]; intros cur Hcur; simpl.
  - destruct cur; [constructor | constructor; [apply Htok, Hcur | constructor]].
  - destruct (is_space c) eqn:E.
    + destruct cur; [apply IH; reflexivity|].
      constructor; [apply Htok, Hcur | apply IH; reflexivity].
    + apply IH; simpl; rewrite E, Hcur; reflexivity.
Qed.

(** [[code.strip() for code in s.strip().split()]] is [s.split()]. *)
Lemma codes_of_string (s : string) : map strip (split_ws (strip s)) = split_ws s.
Proof.
  rewrite split_ws_strip.
  assert (H : Forall (fun t => nospace t = true) (split_ws s))
    by (apply split_ws_aux_nospace; reflexivity).
  induction H as [|t ts Ht _ IH]; simpl; [reflexivity|].
  rewrite strip_nospace by exact Ht; rewrite IH; reflexivity.
Qed.

(** X19. For a multi-choice field bound to a (non-empty) list name whose labels
    are strings, any string value is split on whitespace ([str.split]) and
    its codes are mapped one by one, the raw code on a miss, and joined
    with [" | "] in their original order. *)
Lemma get_labels_for_multiple_string_labels
    (field ln : string) (li : Labels.label_info) (s : string) :
  dict_get value_eqb (Labels.select_multiple li) (VStr field) = Some ln ->
  ln <> EmptyString ->
  (forall c lab, In c (split_ws s) ->
     dict_get String.eqb (Labels.choice_list li (Some ln)) c = Some lab -> exists l, lab = VStr l) ->
  Labels.get_labels_for_multiple field (VStr s) li
  = Ok (VStr (join " | " (map (label_or_code (Labels.choice_list li (Some ln))) (split_ws s)))).
Proof.
  intros Hln Hne Hlab.
  unfold Labels.get_labels_for_multiple; rewrite Hln.
  destruct (String.eqb ln "") eqn:E; [apply String.eqb_eq in E; contradiction|].
  cbv zeta.
  rewrite codes_of_string, strings_of_labels by exact Hlab; reflexivity.
Qed.

(** Non-string values and empty strings are returned unchanged. *)
Lemma get_labels_for_multiple_passthrough (field : string) (v : value) (li : Labels.label_info) :
  (forall s, v <> VStr s) \/ v = VStr EmptyString ->
  Labels.get_labels_for_multiple field v li = Ok v.
Proof.
  intros Hv; unfold Labels.get_labels_for_multiple.
  destruct (dict_get value_eqb (Labels.select_multiple li) (VStr field)) as [ln|];
    [|destruct v; reflexivity].
  destruct Hv as [Hv | ->].
  - destruct v as [s| |]; [exfalso; exact (Hv s eq_refl) | reflexivity | reflexivity].
  - destruct (String.eqb ln ""); reflexivity.
Qed.

(** ** Loading stages: the dataset filter *)

Lemma value_eqb_spec (a b : value) : value_eqb a b = true <-> a = b.
Proof.
  destruct a as [x|x|], b as [y|y|]; simpl;
    try (split; [discriminate | intros H; discriminate H]); try tauto.
  - rewrite String.eqb_eq; split; congruence.
  - rewrite Z.eqb_eq; split; congruence.
Qed.

Lemma value_eqb_refl (a : value) : value_eqb a a = true.
Proof. apply value_eqb_spec; reflexivity. Qed.

Lemma col_index_none (cs : list string) (c : string) :
  memb c cs = false -> col_index cs c = None.
Proof.
  unfold memb; induction cs as [|c' cs IH]; simpl; [reflexivity|].
  destruct (String.eqb c c'); simpl; [discriminate|].
  intros H; rewrite IH by exact H; reflexivity.
Qed.

Lemma col_index_some (cs : list string) (c : string) :
  memb c cs = true -> exists i, col_index cs c = Some i.
Proof.
  unfold memb; induction cs as [|c' cs IH]; simpl; [discriminate|].
  destruct (String.eqb c c'); simpl; [eauto|].
  intros H; destruct (IH H) as [i ->]; eauto.
Qed.

(** X2. On an existing column the filter keeps the columns and exactly the rows
    whose cell equals the value; a NaN value keeps no row. *)
Theorem filter_stage_rows (df : table) (c : string) (i : nat) (v : value) :
  col_index (cols df) c = Some i ->
  cols (Pipeline.filter_stage df (Some (Some c, Some v))) = cols df
  /\ forall r, In r (rows (Pipeline.filter_stage df (Some (Some c, Some v))))
               <-> In r (rows df) /\ v <> VNaN /\ nth i r VNaN = v.
Proof.
  intros Hi; unfold Pipeline.filter_stage; rewrite Hi; simpl.
  split; [reflexivity|]; intros r; rewrite filter_In; split.
  - intros [Hin Hp]; unfold Pipeline.py_eq in Hp.
    destruct (nth i r VNaN) as [s|z|] eqn:E; try discriminate;
      apply value_eqb_spec in Hp; subst v; repeat split; auto; discriminate.
  - intros [Hin [Hv Hn]]; split; [exact Hin|]; rewrite Hn.
    destruct v; [apply value_eqb_refl | apply value_eqb_refl | contradiction].
Qed.

Definition status_df : table :=
  mk_table ["KEY"; "status"]
    [[VStr "a"; VStr "open"]; [VStr "b"; VStr "closed"]; [VStr "c"; VNaN]].

Lemma filter_stage_rows_witness :
  In [VStr "b"; VStr "closed"]
     (rows (Pipeline.filter_stage status_df (Some (Some "status", Some (VStr "closed"))))).
Proof.
  apply (proj2 (filter_stage_rows status_df "status" 1 (VStr "closed") eq_refl)).
  split; [simpl; auto | split; [discriminate | reflexivity]].
Defined.

Lemma filter_false {A} (f : A -> bool) (l : list A) :
  (forall x, f x = false) -> filter f l = [].
Proof. intros H; induction l as [|x l IH]; simpl; [reflexivity|]; rewrite H; exact IH. Qed.

(** X3. A filter without a ["value"] entry compares the column with [None]:
    on an existing column it removes every row. *)
Theorem filter_stage_missing_value (df : table) (c : string) :
  memb c (cols df) = true ->
  Pipeline.filter_stage df (Some (Some c, None)) = mk_table (cols df) [].
Proof.
  intros H; destruct (col_index_some _ _ H) as [i Hi].
  unfold Pipeline.filter_stage; rewrite Hi.
  rewrite filter_false; [reflexivity|]; intros r; destruct (nth i r VNaN); reflexivity.
Qed.

Lemma filter_stage_missing_value_witness :
  Pipeline.filter_stage sample_primary (Some (Some "cv", None)) = mk_table ["KEY"; "cv"] [].
Proof. apply filter_stage_missing_value; reflexivity. Defined.

(** ** [write_dataset] *)

Lemma indices_of_spec (cs : list string) (k : string) (j i : nat) :
  In i (Attach.indices_of cs k j)
  <-> j <= i /\ i - j < length cs /\ nth (i - j) cs "" = k.
Proof.
  revert j; induction cs as [|c cs IH]; intros j; simpl.
  - split; [intros []|lia].
  - destruct (String.eqb c k) eqn:E; [apply String.eqb_eq in E|];
      [simpl; rewrite IH|rewrite IH]; split.
    + intros [<- | [H1 [H2 H3]]]; [rewrite Nat.sub_diag; repeat split; auto; lia|].
      replace (i - j) with (S (i - S j)) by lia; repeat split; auto; lia.
    + intros [H1 [H2 H3]]; destruct (Nat.eq_dec i j) as [->|Hne]; [left; reflexivity|right].
      replace (i - j) with (S (i - S j)) in * by lia; simpl in *; repeat split; auto; lia.
    + intros [H1 [H2 H3]]; replace (i - j) with (S (i - S j)) by lia; repeat split; auto; lia.
    + intros [H1 [H2 H3]]; destruct (Nat.eq_dec i j) as [->|Hne].
      * rewrite Nat.sub_diag in H3; subst k; rewrite String.eqb_refl in E; discriminate.
      * replace (i - j) with (S (i - S j)) in * by lia; simpl in *; repeat split; auto; lia.
Qed.

Lemma memb_In (c : string) (cs : list string) : memb c cs = true <-> In c cs.
Proof.
  unfold memb; rewrite existsb_exists; split.
  - intros [x [Hx E]]; apply String.eqb_eq in E; subst; exact Hx.
  - intros H; exists c; split; [exact H | apply String.eqb_refl].
Qed.

Lemma select_all_present (t : table) (keep : list string) :
  (forall k, In k keep -> In k (cols t)) ->
  exists t', Attach.select t keep = Ok t'
             /\ length (rows t') = length (rows t)
             /\ forall c, In c (cols t') <-> In c keep.
Proof.
  intros Hk; unfold Attach.select.
  replace (forallb (fun k => memb k (cols t)) keep) with true
    by (symmetry; apply forallb_forall; intros k Hin; apply memb_In, Hk, Hin).
  eexists; split; [reflexivity|]; simpl; split; [apply length_map|].
  intros c; rewrite in_map_iff; split.
  - intros [i [Hc Hi]]; apply in_flat_map in Hi; destruct Hi as [k [Hin Hi]].
    apply indices_of_spec in Hi; rewrite Nat.sub_0_r in Hi; destruct Hi as [_ [_ Hi]].
    congruence.
  - intros Hin; destruct (In_nth (cols t) c "" (Hk c Hin)) as [i [Hi Hn]].
    exists i; split; [exact Hn|]; apply in_flat_map; exists c; split; [exact Hin|].
    apply indices_of_spec; rewrite Nat.sub_0_r; repeat split; auto; lia.
Qed.

(** Each column of a selection is a column of the table, with its cells. *)
Lemma select_cells (t t' : table) (keep : list string) :
  Attach.select t keep = Ok t' ->
  forall p, p < length (cols t') ->
  exists i, i < length (cols t)
            /\ nth p (cols t') "" = nth i (cols t) ""
            /\ forall n, nth p (nth n (rows t') []) VNaN = nth i (nth n (rows t) []) VNaN.
Proof.
  unfold Attach.select; destruct (forallb _ keep); [|discriminate].
  intros H; injection H as <-; cbn [cols rows]; intros p Hp.
  rewrite length_map in Hp.
  set (idx := flat_map (fun k => Attach.indices_of (cols t) k 0) keep) in *.
  set (i := nth p idx 0).
  assert (Hi : i < length (cols t)).
  { assert (Hin : In i idx) by (apply nth_In, Hp).
    unfold idx in Hin; apply in_flat_map in Hin; destruct Hin as [k [_ Hin]].
    apply indices_of_spec in Hin; lia. }
  exists i; split; [exact Hi|]; split.
  - rewrite (nth_indep _ "" (nth 0 (cols t) "")) by (rewrite length_map; exact Hp).
    rewrite (map_nth (fun i => nth i (cols t) "")); reflexivity.
  - intros n; destruct (Nat.lt_ge_cases n (length (rows t))) as [Hn|Hn].
    + set (g := fun r : list value => map (fun i => nth i r VNaN) idx).
      rewrite (nth_indep _ [] (g [])) by (rewrite length_map; exact Hn).
      rewrite (map_nth g); unfold g.
      rewrite (nth_indep _ VNaN (nth 0 (nth n (rows t) []) VNaN)) by (rewrite length_map; exact Hp).
      rewrite (map_nth (fun i => nth i (nth n (rows t) []) VNaN)); reflexivity.
    + rewrite (nth_overflow (map _ (rows t))) by (rewrite length_map; exact Hn).
      rewrite (nth_overflow (rows t)) by exact Hn.
      destruct p, i; reflexivity.
Qed.

(** X5. With a tab configuration, the uploaded table has exactly the
    dataset's columns other than the [<field>_file] columns of the
    attachment fields, and the same rows: every column of it is a column
    of the dataset with the same name and the same cell in every row. *)
Theorem write_dataset_excludes_file_columns (df : table) (fs : list string) (a : bool)
    (t : table) (mode : string) :
  Pipeline.write_dataset_prepare df (Some fs) (Some a) = Ok (t, mode) ->
  length (rows t) = length (rows df)
  /\ (forall c, In c (cols t)
                <-> In c (cols df) /\ ~ In c (map (fun f => String.append f "_file") fs))
  /\ (forall p, p < length (cols t) ->
      exists i, i < length (cols df)
                /\ nth p (cols t) "" = nth i (cols df) ""
                /\ forall n, nth p (nth n (rows t) []) VNaN = nth i (nth n (rows df) []) VNaN).
Proof.
  unfold Pipeline.write_dataset_prepare.
  destruct (select_all_present df (filter (fun c => negb (memb c (map (fun f => String.append f "_file") fs))) (cols df)))
    as [t' [Ht' [Hlen Hc]]].
  { intros k Hk; apply filter_In in Hk; apply Hk. }
  rewrite Ht'; simpl; intros Heq; injection Heq as <- _; split; [exact Hlen|]; split.
  - intros c; rewrite Hc, filter_In, negb_true_iff.
    split; intros [Hc1 Hc2]; split; auto.
    + intros Hin; apply memb_In in Hin; congruence.
    + destruct (memb c _) eqn:E; [apply memb_In in E; contradiction | reflexivity].
  - exact (select_cells _ _ _ Ht').
Qed.

Definition upload_df : table :=
  mk_table ["KEY"; "cv"; "cv_file"] [[VStr "uuid:1"; VStr "https://x/cv.pdf"; VStr "cv.pdf"]].

Lemma write_dataset_excludes_file_columns_witness :
  ~ In "cv_file" (cols (fst (match Pipeline.write_dataset_prepare upload_df (Some ["cv"]) (Some true)
                             with Ok p => p | Err _ => (upload_df, "") end))).
Proof.
  intros Hin.
  pose proof (write_dataset_excludes_file_columns upload_df ["cv"] true
                (mk_table ["KEY"; "cv"] [[VStr "uuid:1"; VStr "https://x/cv.pdf"]]) "append"
                eq_refl) as [_ [H _]].
  apply H in Hin; apply (proj2 Hin); simpl; auto.
Defined.

(** ** [collect_row_attachments] *)

Lemma fold_left_app_acc {A B} (step : list B -> A -> list B) :
  (forall acc x, step acc x = acc ++ step [] x) ->
  forall xs acc, fold_left step xs acc = acc ++ fold_left step xs [].
Proof.
  intros Hs xs; induction xs as [|x xs IH]; intros acc; simpl.
  - rewrite app_nil_r; reflexivity.
  - rewrite IH, (IH (step [] x)), Hs, app_assoc; reflexivity.
Qed.

Lemma collect_cons (row : record) (f : string) (fs : list string)
    (g : string -> result string) :
  Pipeline.collect_row_attachments row (f :: fs) g
  = Pipeline.collect_row_attachments row [f] g ++ Pipeline.collect_row_attachments row fs g.
Proof.
  unfold Pipeline.collect_row_attachments; simpl.
  rewrite fold_left_app_acc; [reflexivity|].
  intros acc x; cbv beta.
  destruct (dict_get_default String.eqb row x (VStr "")) as [s| |]; simpl;
    try (rewrite app_nil_r; reflexivity).
  destruct (String.prefix "http" s); [|rewrite app_nil_r; reflexivity].
  destruct (g s); simpl; [reflexivity | rewrite app_nil_r; reflexivity].
Qed.

(** A field is downloaded when its link is a string starting with
    ["http"] and the download succeeds. *)
Definition download_ok (row : record) (g : string -> result string) (f : string) : bool :=
  match dict_get_default String.eqb row f (VStr "") with
  | VStr s => String.prefix "http" s && match g s with Ok _ => true | Err _ => false end
  | _ => false
  end.

Lemma collect_single (row : record) (f : string) (g : string -> result string) :
  length (Pipeline.collect_row_attachments row [f] g) = if download_ok row g f then 1 else 0.
Proof.
  unfold Pipeline.collect_row_attachments, download_ok; simpl.
  destruct (dict_get_default String.eqb row f (VStr "")) as [s| |]; simpl; try reflexivity.
  destruct (String.prefix "http" s); simpl; [|reflexivity].
  destruct (g s); reflexivity.
Qed.

(** X6. [collect_row_attachments] gives one attachment per field whose link is
    an http string and whose download succeeds: other fields and failed
    downloads are skipped without an error. *)
Theorem collect_row_attachments_count (row : record) (fs : list string)
    (g : string -> result string) :
  length (Pipeline.collect_row_attachments row fs g) = length (filter (download_ok row g) fs).
Proof.
  induction fs as [|f fs IH]; [reflexivity|].
  rewrite collect_cons, length_app, IH, collect_single; simpl.
  destruct (download_ok row g f); reflexivity.
Qed.

Lemma collect_In (row : record) (f : string) (fs : list string)
    (g : string -> result string) x :
  In f fs -> In x (Pipeline.collect_row_attachments row [f] g) ->
  In x (Pipeline.collect_row_attachments row fs g).
Proof.
  induction fs as [|f' fs IH]; [intros []|].
  intros [-> | Hin] Hx; rewrite collect_cons; apply in_or_app; [left; exact Hx|].
  right; apply IH; assumption.
Qed.

(** X7. The file name of a downloaded attachment falls back to [<field>.dat]
    when the [<field>_file] entry is missing or empty; a NaN entry is
    truthy and becomes the file name. *)
Theorem collect_row_attachments_filename (row : record) (fs : list string)
    (g : string -> result string) (f s d : string) :
  In f fs ->
  rget row f = Some (VStr s) -> String.prefix "http" s = true -> g s = Ok d ->
  ((rget row (String.append f "_file") = None
    \/ rget row (String.append f "_file") = Some (VStr ""))
   -> In (VStr (String.append f ".dat"), d) (Pipeline.collect_row_attachments row fs g))
  /\ (rget row (String.append f "_file") = Some VNaN
      -> In (VNaN, d) (Pipeline.collect_row_attachments row fs g)).
Proof.
  unfold rget; intros Hf Hl Hp Hg; split; [intros Hfile|intros Hfile];
    apply (collect_In row f fs g _ Hf); unfold Pipeline.collect_row_attachments; simpl;
    unfold dict_get_default; rewrite Hl, Hp, Hg;
    [destruct Hfile as [-> | ->] | rewrite Hfile]; simpl; auto.
Qed.

Definition attachment_row : record :=
  [("KEY", VStr "uuid:1"); ("cv", VStr "https://x/cv.pdf"); ("photo", VStr "https://x/p.jpg");
   ("photo_file", VNaN)].

Definition attachment_download (link : string) : result string :=
  if String.eqb link "https://x/cv.pdf" then Ok "%PDF" else Ok "JPEG".

Lemma collect_row_attachments_filename_witness :
  In (VStr "cv.dat", "%PDF") (Pipeline.collect_row_attachments attachment_row ["cv"; "photo"] attachment_download)
  /\ In (VNaN, "JPEG") (Pipeline.collect_row_attachments attachment_row ["cv"; "photo"] attachment_download).
Proof.
  split.
  - apply (proj1 (collect_row_attachments_filename attachment_row ["cv"; "photo"]
                   attachment_download "cv" "https://x/cv.pdf" "%PDF"
                   (or_introl eq_refl) eq_refl eq_refl eq_refl)).
    left; reflexivity.
  - apply (proj2 (collect_row_attachments_filename attachment_row ["cv"; "photo"]
                   attachment_download "photo" "https://x/p.jpg" "JPEG"
                   (or_intror (or_introl eq_refl)) eq_refl eq_refl eq_refl)).
    reflexivity.
Defined.

(** ** [run_specific_scripts] *)



(** ** [merge_attachments] keeps every primary row *)

Lemma flat_map_length_ge {A B} (f : A -> list B) (l : list A) :
  (forall x, 1 <= length (f x)) -> length l <= length (flat_map f l).
Proof.
  intros Hf; induction l as [|x l IH]; simpl; [lia|].
  rewrite length_app; specialize (Hf x); lia.
Qed.

Lemma merge_left_rows (left right : table) (key : string) (t : table) :
  Attach.merge_left left right key = Ok t -> length (rows left) <= length (rows t).
Proof.
  unfold Attach.merge_left.
  destruct (col_index (cols left) key) as [li|]; [|discriminate].
  destruct (col_index (cols right) key) as [ri|]; [|discriminate].
  destruct (_ || _); [discriminate|].
  destruct (_ || _); [discriminate|].
  intros H; injection H as <-; simpl; apply flat_map_length_ge.
  intros lr; destruct (filter _ (rows right)) as [|m ms]; simpl; lia.
Qed.

Lemma rename_attachment_fields_rows (df : table) (fs : list string) :
  rows (Attach.rename_attachment_fields df fs) = rows df.
Proof.
  unfold Attach.rename_attachment_fields; revert df; induction fs as [|f fs IH]; intros df;
    simpl; [reflexivity|].
  rewrite IH; destruct (memb f (cols df)); reflexivity.
Qed.

(** X10. [merge_attachments] never drops a row of the primary table: whether
    it merges, gives up, or fails, the result has at least as many rows. *)
Theorem merge_attachments_keeps_rows (df_main : table) (cfg : Attach.attach_cfg)
    (fetch : string -> result table) :
  length (rows df_main) <= length (rows (Attach.merge_attachments df_main cfg fetch)).
Proof.
  unfold Attach.merge_attachments.
  destruct (Attach.from_form cfg) as [fc|]; [|lia].
  destruct (fetch (Attach.form_id fc)) as [df_form|e]; [|lia].
  destruct (_ && _); [|lia].
  destruct (df_form' <- _ ;; _) as [merged|e] eqn:E.
  - destruct (Attach.select _ _) as [df_form'|e]; simpl in E; [|discriminate].
    apply merge_left_rows in E; rewrite rename_attachment_fields_rows in E; exact E.
  - rewrite rename_attachment_fields_rows; lia.
Qed.

(** ** [apply_column_labels] *)

Section DictKeys.
Context {K V : Type} (keqb : K -> K -> bool).
Hypothesis keqb_spec : forall a b, keqb a b = true <-> a = b.

Lemma dict_set_keys (d : list (K * V)) k v x :
  In x (map fst (dict_set keqb d k v)) <-> In x (map fst d) \/ x = k.
Proof.
  induction d as [|[k' v'] r IH]; simpl; [intuition|].
  destruct (keqb k k') eqn:E; simpl.
  - apply keqb_spec in E; subst k'; intuition.
  - rewrite IH; intuition.
Qed.

Lemma dict_set_nodup (d : list (K * V)) k v :
  NoDup (map fst d) -> NoDup (map fst (dict_set keqb d k v)).
Proof.
  induction d as [|[k' v'] r IH]; simpl; intros Hd; [constructor; [intros []|constructor]|].
  inversion Hd as [|? ? Hn Hr]; subst.
  destruct (keqb k k') eqn:E; simpl; [exact Hd|].
  constructor; [|apply IH, Hr].
  rewrite dict_set_keys; intros [H | ->]; [contradiction|].
  rewrite (proj2 (keqb_spec k k) eq_refl) in E; discriminate.
Qed.

Lemma keq_dec (a b : K) : {a = b} + {a <> b}.
Proof.
  destruct (keqb a b) eqn:E; [left; apply keqb_spec, E|right; intros H; subst].
  rewrite (proj2 (keqb_spec _ _) eq_refl) in E; discriminate.
Defined.

Variable F : K -> V.

Lemma fold_set_keys (cs : list K) (m0 : list (K * V)) x :
  In x (map fst (fold_left (fun fm c => dict_set keqb fm c (F c)) cs m0))
  <-> In x (map fst m0) \/ In x cs.
Proof.
  revert m0; induction cs as [|c cs IH]; intros m0; simpl; [intuition|].
  rewrite IH, dict_set_keys; intuition.
Qed.

Lemma fold_set_nodup (cs : list K) (m0 : list (K * V)) :
  NoDup (map fst m0) -> NoDup (map fst (fold_left (fun fm c => dict_set keqb fm c (F c)) cs m0)).
Proof.
  revert m0; induction cs as [|c cs IH]; intros m0 H; simpl; [exact H|].
  apply IH, dict_set_nodup, H.
Qed.

Lemma fold_set_get_out (cs : list K) (m0 : list (K * V)) c :
  ~ In c cs ->
  dict_get keqb (fold_left (fun fm c => dict_set keqb fm c (F c)) cs m0) c = dict_get keqb m0 c.
Proof.
  revert m0; induction cs as [|x cs IH]; intros m0 Hn; simpl; [reflexivity|].
  rewrite IH by (intros H; apply Hn; right; exact H).
  apply (dict_get_set_other _ keqb_spec); intros ->; apply Hn; left; reflexivity.
Qed.

Lemma fold_set_get (cs : list K) (m0 : list (K * V)) c :
  In c cs ->
  dict_get keqb (fold_left (fun fm c => dict_set keqb fm c (F c)) cs m0) c = Some (F c).
Proof.
  revert m0; induction cs as [|x cs IH]; intros m0 Hc; simpl; [destruct Hc|].
  destruct (in_dec keq_dec c cs) as [Hin|Hn].
  - apply IH, Hin.
  - destruct Hc as [->|Hc]; [|contradiction].
    rewrite fold_set_get_out by exact Hn; apply (dict_get_set_same _ keqb_spec).
Qed.
End DictKeys.

(** The labels file row [r] names column [col] with a usable label: its
    header cell, as it reads after the label column is stripped, is [col]. *)
Definition sheet_label (h l col : string) (r : record) : option string :=
  match rget r h, rget r l with
  | Some hv, Some lv =>
      let lab := strip (py_str lv) in
      let key := if String.eqb h l then VStr lab else hv in
      if notna hv && notna lv && value_eqb (VStr col) key then Some lab else None
  | _, _ => None
  end.

(** The label of the last usable row naming [col], if any. *)
Definition last_sheet_label (h l col : string) (recs : list record) : option string :=
  fold_left (fun acc r => match sheet_label h l col r with Some x => Some x | None => acc end)
            recs None.

Lemma label_map_get (h l col : string) (recs : list record) (m : list (value * value)) :
  option_map py_str (dict_get value_eqb
    (fold_left (fun lm row =>
        match rget row h, rget row l with
        | Some hv, Some lv => dict_set value_eqb lm hv lv
        | _, _ => lm
        end)
       (map (fun row => match rget row l with
                        | Some lv => rset row l (VStr (strip (py_str lv)))
                        | None => row
                        end)
          (filter (fun row => match rget row h, rget row l with
                              | Some hv, Some lv => notna hv && notna lv
                              | _, _ => false
                              end) recs)) m) (VStr col))
  = fold_left (fun acc r => match sheet_label h l col r with Some x => Some x | None => acc end)
              recs (option_map py_str (dict_get value_eqb m (VStr col))).
Proof.
  revert m; induction recs as [|r recs IH]; intros m; [reflexivity|].
  cbn [filter fold_left].
  remember (sheet_label h l col r) as sl eqn:Esl; unfold sheet_label in Esl.
  destruct (rget r h) as [hv|] eqn:Eh, (rget r l) as [lv|] eqn:El; subst sl; try apply IH.
  destruct (notna hv && notna lv) eqn:En; cbn [andb]; [|apply IH].
  cbn [map fold_left]; rewrite IH; f_equal.
  rewrite El, rget_rset_same.
  assert (Hk : rget (rset r l (VStr (strip (py_str lv)))) h
               = Some (if String.eqb h l then VStr (strip (py_str lv)) else hv)).
  { destruct (String.eqb h l) eqn:E.
    - apply string_eqb_spec in E; subst h; apply rget_rset_same.
    - rewrite rget_rset_other; [exact Eh|].
      intros ->; rewrite String.eqb_refl in E; discriminate. }
  rewrite Hk.
  destruct (value_eqb (VStr col) (if String.eqb h l then VStr (strip (py_str lv)) else hv)) eqn:E.
  - apply value_eqb_spec in E; rewrite <- E, (dict_get_set_same _ value_eqb_spec); reflexivity.
  - rewrite (dict_get_set_other _ value_eqb_spec); [reflexivity|].
    intros Heq; rewrite Heq, value_eqb_refl in E; discriminate.
Qed.

Definition label_sheet : table :=
  mk_table ["header"; "label"]
    [[VStr "pi_name"; VStr " PI "]; [VStr "KEY"; VNaN]; [VStr "pi_name"; VStr "Principal investigator"]].

(** X12. Each column's label is the stripped label of the last row of the
    labels file naming it (rows with a missing header or label are
    dropped; when the header and label columns coincide the header is
    read stripped), else the fallback [col.replace("_", " ").title()]. *)
Theorem apply_column_labels_label (df ldf : table) (h l : string) (m : list (string * string))
    (col : string) :
  Pipeline.apply_column_labels df (Ok ldf) h l = Ok m -> In col (cols df) ->
  dict_get String.eqb m col
  = Some (match last_sheet_label h l col (table_records ldf) with
          | Some lab => lab
          | None => Pipeline.default_label col
          end).
Proof.
  unfold Pipeline.apply_column_labels; cbn [bind].
  destruct (_ && _); [|discriminate]; intros H Hc; injection H as <-.
  rewrite (fold_set_get _ string_eqb_spec) by exact Hc; f_equal.
  pose proof (label_map_get h l col (table_records ldf) []) as E.
  cbn [dict_get option_map] in E; unfold last_sheet_label; rewrite <- E.
  destruct (dict_get value_eqb _ (VStr col)); reflexivity.
Qed.

Lemma apply_column_labels_label_witness :
  dict_get String.eqb (match Pipeline.apply_column_labels
                               (mk_table ["pi_name"; "KEY"; "hire_role"] []) (Ok label_sheet) "header" "label"
                             with Ok m => m | Err _ => [] end) "pi_name"
  = Some "Principal investigator"
  /\ dict_get String.eqb (match Pipeline.apply_column_labels
                                 (mk_table ["pi_name"] []) (Ok (mk_table ["label"] [[VStr " pi_name "]]))
                                 "label" "label"
                               with Ok m => m | Err _ => [] end) "pi_name"
     = Some "pi_name".
Proof.
  split.
  - exact (apply_column_labels_label (mk_table ["pi_name"; "KEY"; "hire_role"] []) label_sheet
             "header" "label" [("pi_name", "Principal investigator"); ("KEY", "Key"); ("hire_role", "Hire Role")]
             "pi_name" eq_refl (or_introl eq_refl)).
  - exact (apply_column_labels_label (mk_table ["pi_name"] []) (mk_table ["label"] [[VStr " pi_name "]])
             "label" "label" [("pi_name", "pi_name")] "pi_name" eq_refl (or_introl eq_refl)).
Defined.

(** ** [app.py]: the detail view *)

Lemma configured_fold (xs acc : list string) :
  NoDup acc ->
  NoDup (fold_left (fun acc col => if memb col acc then acc else acc ++ [col]) xs acc)
  /\ forall c, In c (fold_left (fun acc col => if memb col acc then acc else acc ++ [col]) xs acc)
               <-> In c acc \/ In c xs.
Proof.
  revert acc; induction xs as [|x xs IH]; intros acc Hacc; simpl; [split; [exact Hacc | tauto]|].
  destruct (memb x acc) eqn:E.
  - destruct (IH acc Hacc) as [H1 H2]; split; [exact H1|]; intros c; rewrite H2.
    apply memb_In in E; intuition; subst; auto.
  - assert (Hn : NoDup (acc ++ [x])).
    { apply NoDup_app; [exact Hacc | constructor; [intros []|constructor] |].
      intros y Hy [<- | []]; apply memb_In in Hy; congruence. }
    destruct (IH _ Hn) as [H1 H2]; split; [exact H1|]; intros c; rewrite H2, in_app_iff; simpl.
    intuition.
Qed.

Lemma configured_cols_in (default_cols detail_cols : list string) c :
  In c (App.configured_cols default_cols detail_cols) <-> In c default_cols \/ In c detail_cols.
Proof.
  destruct (configured_fold (default_cols ++ detail_cols) [] (NoDup_nil _)) as [_ H2].
  unfold App.configured_cols; rewrite H2, in_app_iff; simpl; tauto.
Qed.

(** X15. The detail view's configured columns are the default and detail
    columns without repeats. *)
Theorem configured_cols_spec (default_cols detail_cols : list string) :
  NoDup (App.configured_cols default_cols detail_cols)
  /\ forall c, In c (App.configured_cols default_cols detail_cols)
               <-> In c default_cols \/ In c detail_cols.
Proof.
  split; [apply (configured_fold (default_cols ++ detail_cols) [] (NoDup_nil _))|].
  apply configured_cols_in.
Qed.

Lemma display_fold (step_val : string -> result value) (lbl : string -> string)
    (cs : list string) (d0 disp : list (string * value)) :
  fold_left (fun acc col => d <- acc ;; val <- step_val col ;; Ok (dict_set String.eqb d (lbl col) val))
            cs (Ok d0) = Ok disp ->
  NoDup (map fst d0) ->
  NoDup (map fst disp) /\ forall k, In k (map fst disp) <-> In k (map fst d0) \/ exists col, In col cs /\ lbl col = k.
Proof.
  assert (Herr : forall cs e, fold_left (fun acc col => d <- acc ;; val <- step_val col ;;
                     Ok (dict_set String.eqb d (lbl col) val)) cs (Err e) = Err e).
  { intros cs' e; induction cs' as [|c cs' IH]; simpl; [reflexivity | exact IH]. }
  revert d0; induction cs as [|c cs IH]; intros d0 H Hd; simpl in H.
  - injection H as <-; split; [exact Hd|]; intros k; split; [tauto|].
    intros [Hk | [col [[] _]]]; exact Hk.
  - destruct (step_val c) as [v|e]; simpl in H; [|rewrite Herr in H; discriminate].
    destruct (IH _ H) as [H1 H2]; [apply (dict_set_nodup _ string_eqb_spec), Hd|].
    split; [exact H1|]; intros k; rewrite H2, (dict_set_keys _ string_eqb_spec).
    split.
    + intros [[Hk | ->] | [col [Hin Hl]]]; [left; exact Hk | right; exists c; simpl; auto |
        right; exists col; simpl; auto].
    + intros [Hk | [col [[<- | Hin] Hl]]]; [left; left; exact Hk | left; right; symmetry; exact Hl |
        right; exists col; auto].
Qed.

(** X16. The detail view shows one entry per display label: its keys are
    distinct, and they are the labels ([column_labels.get(col, col)]) of
    the configured columns present in the table, so two columns with the
    same label share one entry. *)
Theorem row_display_keys (df : table) (row : record) (default_cols detail_cols : list string)
    (column_labels : list (string * string)) (li : Labels.label_info)
    (disp : list (string * value)) :
  App.row_display df row default_cols detail_cols column_labels li = Ok disp ->
  NoDup (map fst disp)
  /\ forall k, In k (map fst disp)
               <-> exists col, In col (cols df) /\ (In col default_cols \/ In col detail_cols)
                               /\ dict_get_default String.eqb column_labels col col = k.
Proof.
  intros H.
  destruct (display_fold
      (fun col =>
         let val := match rget row col with Some v => v | None => VNaN end in
         if existsb (fun '(k, _) => value_eqb k (VStr col)) (Labels.select_one li)
         then Ok (Labels.get_label col val li)
         else if existsb (fun '(k, _) => value_eqb k (VStr col)) (Labels.select_multiple li)
         then Labels.get_labels_for_multiple col val li
         else Ok val)
      (fun col => dict_get_default String.eqb column_labels col col)
      _ [] disp H (NoDup_nil _)) as [H1 H2].
  split; [exact H1|]; intros k; rewrite H2; simpl.
  split.
  - intros [[] | [col [Hin Hl]]]; apply filter_In in Hin; destruct Hin as [Hin Hm].
    apply memb_In in Hm; apply configured_cols_in in Hin; eauto.
  - intros [col [Hc [Hd Hl]]]; right; exists col; split; [|exact Hl].
    apply filter_In; split; [apply configured_cols_in; exact Hd | apply memb_In, Hc].
Qed.

Definition detail_df : table :=
  mk_table ["KEY"; "pi_name"; "pi_add"] [[VStr "uuid:1"; VStr "Ada"; VStr "No"]].

Lemma row_display_keys_witness :
  NoDup (map fst (match App.row_display detail_df (row_record (cols detail_df) [VStr "uuid:1"; VStr "Ada"; VStr "No"])
                          ["pi_name"] ["pi_add"; "pi_name"]
                          [("pi_name", "PI"); ("pi_add", "PI")] (Labels.mk_label_info [] [] [])
                  with Ok d => d | Err _ => [] end)).
Proof.
  exact (proj1 (row_display_keys detail_df (row_record (cols detail_df) [VStr "uuid:1"; VStr "Ada"; VStr "No"])
                  ["pi_name"] ["pi_add"; "pi_name"] [("pi_name", "PI"); ("pi_add", "PI")]
                  (Labels.mk_label_info [] [] []) [("PI", VStr "No")] eq_refl)).
Defined.

(** ** [app.py]: the table view *)

Ltac other_char x H1 H2 :=
  destruct x as [[] [] [] [] [] [] [] []]; try reflexivity;
  exfalso; first [apply H1; reflexivity | apply H2; reflexivity].

(** The pattern [\\.0$] needs a backslash: on a string without one the
    substitution changes nothing. *)
Lemma sub_no_backslash (s : string) :
  ~ In "\"%char (list_ascii_of_string s) -> App.sub_backslash_any_zero s = s.
Proof.
  intros H; unfold App.sub_backslash_any_zero.
  assert (Hr : ~ In "\"%char (rev (list_ascii_of_string s))) by (rewrite <- in_rev; exact H).
  revert Hr; generalize (rev (list_ascii_of_string s)) as l; intros l Hr.
  destruct l as [|a l]; [reflexivity|].
  destruct (ascii_dec a "0") as [->|Ha0].
  - destruct l as [|b [|c r]]; try reflexivity.
    destruct (ascii_dec c "\") as [->|Hc]; [exfalso; apply Hr; simpl; auto|].
    other_char c Hc Hc.
  - destruct (ascii_dec a "010") as [->|Ha1]; [|other_char a Ha0 Ha1].
    destruct l as [|b l]; [reflexivity|].
    destruct (ascii_dec b "0") as [->|Hb]; [|other_char b Hb Hb].
    destruct l as [|c [|d r]]; try reflexivity.
    destruct (ascii_dec d "\") as [->|Hd]; [exfalso; apply Hr; simpl; auto|].
    other_char d Hd Hd.
Qed.

(** X17. For a select_one column the table view and the detail view look the
    stripped cell text up in the same choice list (a trailing [.0] is kept:
    the table view's pattern needs a backslash).  A found code shows its
    label in both; a missing code shows NaN in the table and the raw value
    in the detail view. *)
Theorem table_view_select_one_cell (li : Labels.label_info) (col ln : string) (v : value) :
  dict_get value_eqb (Labels.select_one li) (VStr col) = Some ln ->
  ~ In "\"%char (list_ascii_of_string (strip (py_str v))) ->
  App.table_view_cell li col v
  = Ok (match dict_get String.eqb (Labels.choice_list li (Some ln)) (strip (py_str v)) with
        | Some lab => lab
        | None => VNaN
        end)
  /\ Labels.get_label col v li
     = match dict_get String.eqb (Labels.choice_list li (Some ln)) (strip (py_str v)) with
       | Some lab => lab
       | None => v
       end.
Proof.
  intros Hln Hb; split.
  - unfold App.table_view_cell; rewrite Hln; unfold App.table_select_one_cell.
    rewrite sub_no_backslash by exact Hb; reflexivity.
  - unfold Labels.get_label, dict_get_default; rewrite Hln; reflexivity.
Qed.

Definition pi_add_labels : Labels.label_info :=
  Labels.mk_label_info [(VStr "pi_add", "yes_no")] []
    [(VStr "yes_no", [("1", VStr "Yes"); ("0", VStr "No")])].

Lemma table_view_select_one_cell_witness :
  App.table_view_cell pi_add_labels "pi_add" (VStr "1.0") = Ok VNaN
  /\ Labels.get_label "pi_add" (VStr "1.0") pi_add_labels = VStr "1.0".
Proof.
  apply (table_view_select_one_cell pi_add_labels "pi_add" "yes_no" (VStr "1.0") eq_refl).
  intros H; simpl in H; repeat (destruct H as [H|H]; [discriminate H|]); exact H.
Defined.

(** ** The fallback column label *)

Lemma substring_0_all (r : string) (m : nat) :
  String.length r <= m -> substring 0 m r = r.
Proof.
  revert m; induction r as [|c r IH]; intros m Hm; destruct m as [|m]; simpl in *;
    try reflexivity; [lia|]; rewrite IH by lia; reflexivity.
Qed.

Lemma replace_underscore_fuel (fuel : nat) (s : string) :
  String.length s <= fuel ->
  ~ In "_"%char (list_ascii_of_string (Process.replace_all_fuel fuel "_" " " s)).
Proof.
  revert s; induction fuel as [|f IH]; intros s Hs.
  - destruct s; simpl in *; [tauto | lia].
  - destruct s as [|c r]; [simpl; tauto|].
    cbn [Process.replace_all_fuel String.prefix].
    destruct (ascii_dec "_" c) as [<-|Hc].
    + cbn [String.length]; cbn [substring].
      rewrite substring_0_all by lia; simpl.
      replace (String.prefix "" r) with true by (destruct r; reflexivity).
      intros [H | H]; [discriminate H|]; revert H; apply IH; simpl in Hs; lia.
    + simpl; intros [H | H]; [congruence|]; revert H; apply IH; simpl in Hs; lia.
Qed.

Lemma case_not_underscore (c : ascii) :
  (Pipeline.is_upper c || Pipeline.is_lower c) = true ->
  Pipeline.to_lower c <> "_"%char /\ Pipeline.to_upper c <> "_"%char.
Proof.
  destruct c as [[] [] [] [] [] [] [] []]; intros H; vm_compute in H;
    try discriminate H; split; vm_compute; discriminate.
Qed.

Lemma title_aux_no_underscore (b : bool) (s : string) :
  ~ In "_"%char (list_ascii_of_string s) ->
  ~ In "_"%char (list_ascii_of_string (Pipeline.title_aux b s)).
Proof.
  revert b; induction s as [|c r IH]; intros b Hs; simpl; [tauto|].
  destruct (Pipeline.is_upper c || Pipeline.is_lower c) eqn:E; simpl.
  - destruct (case_not_underscore c E) as [Hl Hu].
    intros [H | H]; [destruct b; congruence|].
    revert H; apply IH; intros H; apply Hs; simpl; auto.
  - intros [H | H]; [apply Hs; simpl; auto|].
    revert H; apply IH; intros H; apply Hs; simpl; auto.
Qed.

(** X14. The fallback label [col.replace("_", " ").title()] of a column
    contains no underscore. *)
Theorem default_label_no_underscore (col : string) :
  ~ In "_"%char (list_ascii_of_string (Pipeline.default_label col)).
Proof.
  unfold Pipeline.default_label, Pipeline.title, Process.replace_all.
  apply title_aux_no_underscore, replace_underscore_fuel; lia.
Qed.

(** ** Role explosion over a whole table *)

(** A token of [hire_role] that [role_suffix_map] knows. *)
Definition recognized_role (role : string) : bool :=
  match dict_get String.eqb Process.role_suffix_map (strip role) with
  | Some _ => true
  | None => false
  end.

Lemma explode_role_length (row : record) (role : string) (outs : list record) :
  Process.explode_role row role = Ok outs ->
  length outs = if recognized_role role then 1 else 0.
Proof.
  unfold Process.explode_role, recognized_role.
  destruct (dict_get String.eqb Process.role_suffix_map (strip role)) as [suffix|].
  - destruct (if String.eqb (strip role) "Other" then _ else _); simpl; [|discriminate].
    intros H; injection H as <-; reflexivity.
  - intros H; injection H as <-; reflexivity.
Qed.

Lemma explode_roles_length (row : record) (roles : list string) (outs : list record) :
  Process.explode_roles row roles = Ok outs ->
  length outs = length (filter recognized_role roles).
Proof.
  revert outs; induction roles as [|role roles IH]; intros outs; simpl.
  - intros H; injection H as <-; reflexivity.
  - destruct (Process.explode_role row role) as [a|e] eqn:Ea; simpl; [|discriminate].
    destruct (Process.explode_roles row roles) as [b|e] eqn:Eb; simpl; [|discriminate].
    intros H; injection H as <-; rewrite length_app, (explode_role_length _ _ _ Ea), (IH b eq_refl).
    destruct (recognized_role role); reflexivity.
Qed.

(** X21. When the explosion of the whole table succeeds, it produces one record
    per recognized role token, summed over the source rows. *)
Theorem explode_length (recs outs : list record) :
  Process.explode recs = Ok outs ->
  length outs = list_sum (map (fun r => length (filter recognized_role (Process.roles_of r))) recs).
Proof.
  revert outs; induction recs as [|r recs IH]; intros outs; simpl.
  - intros H; injection H as <-; reflexivity.
  - unfold Process.explode_row.
    destruct (Process.explode_roles r (Process.roles_of r)) as [a|e] eqn:Ea; simpl; [|discriminate].
    destruct (Process.explode recs) as [b|e] eqn:Eb; simpl; [|discriminate].
    intros H; injection H as <-; rewrite length_app, (explode_roles_length _ _ _ Ea), (IH b eq_refl).
    reflexivity.
Qed.

Definition two_rows : list record :=
  [[("hire_role", VStr "RA FC Intern")]; [("hire_role", VStr "Other"); ("hire_role_other", VStr "Analyst")]].

Lemma explode_length_witness :
  length (match Process.explode two_rows with Ok o => o | Err _ => [] end) = 3.
Proof.
  exact (explode_length two_rows _ eq_refl).
Defined.

(** ** Location normalization: the order of the matches *)

Definition longer_or_equal (a b : string) : Prop := (Process.py_len b <= Process.py_len a)%nat.

Lemma insert_by_len_sorted (x : string) (l : list string) :
  StronglySorted longer_or_equal l -> StronglySorted longer_or_equal (Process.insert_by_len x l).
Proof.
  unfold longer_or_equal; induction l as [|y l IH]; intros Hs; simpl.
  - repeat constructor.
  - inversion Hs as [|? ? Hl Hy]; subst.
    destruct (Process.py_len y <? Process.py_len x)%nat eqn:E.
    + apply Nat.ltb_lt in E; constructor; [exact Hs|].
      constructor; [lia|]; eapply Forall_impl; [|exact Hy]; intros a Ha; simpl in Ha; lia.
    + apply Nat.ltb_ge in E; constructor; [apply IH, Hl|].
      apply Forall_forall; intros a Ha; apply insert_by_len_In in Ha; destruct Ha as [-> | Ha];
        [lia | rewrite Forall_forall in Hy; apply Hy, Ha].
Qed.

Lemma sorted_filter {A} (R : A -> A -> Prop) (f : A -> bool) (l : list A) :
  StronglySorted R l -> StronglySorted R (filter f l).
Proof.
  induction l as [|x l IH]; intros Hs; simpl; [constructor|].
  inversion Hs as [|? ? Hl Hx]; subst.
  destruct (f x); [constructor; [apply IH, Hl|]|apply IH, Hl].
  apply Forall_forall; intros a Ha; apply filter_In in Ha; rewrite Forall_forall in Hx; apply Hx, Ha.
Qed.

(** X22. The normalized location lists the catalog names and ["Global"] that
    occur in the text, and only those, longest first (in code points). *)
Theorem matched_names_longest_first (countries : list string) (text : value) :
  StronglySorted longer_or_equal (Process.matched_names countries text)
  /\ forall name, In name (Process.matched_names countries text)
                  <-> (In name countries \/ name = "Global") /\ substringb name (py_str text) = true.
Proof.
  split; [|apply matched_names_In].
  unfold Process.matched_names, Process.sort_by_len_desc; apply sorted_filter.
  generalize (countries ++ ["Global"]) as l; intros l.
  assert (H : forall acc, StronglySorted longer_or_equal acc ->
              StronglySorted longer_or_equal (fold_left (fun acc x => Process.insert_by_len x acc) l acc)).
  { induction l as [|x l IH]; intros acc Hacc; simpl; [exact Hacc|].
    apply IH, insert_by_len_sorted, Hacc. }
  apply H; constructor.
Qed.

(** ** The process script's output *)

(** Every row has one cell per column. *)
Definition rect (t : table) : Prop := Forall (fun r => length r = length (cols t)) (rows t).

Lemma col_index_spec (cs : list string) (c : string) (i : nat) :
  col_index cs c = Some i -> i < length cs /\ nth i cs "" = c.
Proof.
  revert i; induction cs as [|c' cs IH]; intros i; simpl; [discriminate|].
  destruct (String.eqb c c') eqn:E.
  - intros H; injection H as <-; apply String.eqb_eq in E; split; [lia | congruence].
  - destruct (col_index cs c) as [i'|] eqn:Ei; [|discriminate].
    intros H; injection H as <-; destruct (IH i' eq_refl); split; [lia | assumption].
Qed.

Lemma col_index_app (cs ds : list string) (c : string) (i : nat) :
  col_index cs c = Some i -> col_index (cs ++ ds) c = Some i.
Proof.
  revert i; induction cs as [|c' cs IH]; intros i; simpl; [discriminate|].
  destruct (String.eqb c c'); [tauto|].
  destruct (col_index cs c) as [i'|]; [|discriminate].
  intros H; rewrite (IH i' eq_refl); exact H.
Qed.

Lemma col_index_app_new (cs : list string) (c : string) :
  col_index cs c = None -> col_index (cs ++ [c]) c = Some (length cs).
Proof.
  induction cs as [|c' cs IH]; simpl.
  - rewrite String.eqb_refl; reflexivity.
  - destruct (String.eqb c c'); [discriminate|].
    destruct (col_index cs c); [discriminate|]; intros _; rewrite IH by reflexivity; reflexivity.
Qed.

Lemma map_result_forall2 {A B} (f : A -> result B) (xs : list A) (ys : list B) :
  map_result f xs = Ok ys -> Forall2 (fun x y => f x = Ok y) xs ys.
Proof.
  revert ys; induction xs as [|x xs IH]; intros ys; simpl.
  - intros H; injection H as <-; constructor.
  - destruct (f x) as [y|e] eqn:Ef; simpl; [|discriminate].
    destruct (map_result f xs) as [ys'|e] eqn:Er; simpl; [|discriminate].
    intros H; injection H as <-; constructor; [exact Ef | apply IH; reflexivity].
Qed.

Lemma replace_nth_spec (r : list value) (i : nat) (v : value) :
  i < length r ->
  length (firstn i r ++ v :: skipn (S i) r) = length r
  /\ forall j, nth j (firstn i r ++ v :: skipn (S i) r) VNaN = if Nat.eqb j i then v else nth j r VNaN.
Proof.
  revert i; induction r as [|x r IH]; intros i Hi; simpl in Hi; [lia|].
  destruct i as [|i].
  - simpl; split; [reflexivity|]; intros [|j]; reflexivity.
  - destruct (IH i ltac:(lia)) as [H1 H2]; split; [cbn [firstn app length]; f_equal; exact H1|].
    intros [|j]; [reflexivity | exact (H2 j)].
Qed.

Lemma forall2_forall {A B} (P : A -> B -> Prop) (Q : A -> Prop) (R : B -> Prop) xs ys :
  Forall2 P xs ys -> Forall Q xs -> (forall x y, P x y -> Q x -> R y) -> Forall R ys.
Proof.
  intros H2 HQ HR; induction H2 as [|x y xs ys Hp _ IH]; constructor;
    inversion HQ; subst; [eapply HR; eauto | apply IH; assumption].
Qed.

Lemma forall2_strengthen {A B} (P P' : A -> B -> Prop) (Q : A -> Prop) xs ys :
  Forall2 P xs ys -> Forall Q xs -> (forall x y, P x y -> Q x -> P' x y) -> Forall2 P' xs ys.
Proof.
  intros H2 HQ HR; induction H2 as [|x y xs ys Hp _ IH]; constructor;
    inversion HQ; subst; [eapply HR; eauto | apply IH; assumption].
Qed.

Lemma column_apply_spec (t t' : table) (c : string) (f : value -> result value) :
  rect t -> column_apply t c f = Ok t' ->
  exists i, col_index (cols t) c = Some i /\ cols t' = cols t /\ rect t'
  /\ Forall2 (fun r r' => f (nth i r VNaN) = Ok (nth i r' VNaN)
                          /\ forall j, j <> i -> nth j r' VNaN = nth j r VNaN) (rows t) (rows t').
Proof.
  intros Hr; unfold column_apply.
  destruct (col_index (cols t) c) as [i|] eqn:Ei; [|discriminate].
  destruct (col_index_spec _ _ _ Ei) as [Hlt _].
  destruct (map_result _ (rows t)) as [rs'|e] eqn:Em; simpl; [|discriminate].
  intros H; injection H as <-; apply map_result_forall2 in Em.
  assert (H2 : Forall2 (fun r r' => length r = length (cols t)
                 /\ exists v, f (nth i r VNaN) = Ok v /\ r' = firstn i r ++ v :: skipn (S i) r)
                 (rows t) rs').
  { apply (forall2_strengthen _ _ _ _ _ Em Hr); intros r r' Hb Hl; split; [exact Hl|].
    destruct (f (nth i r VNaN)) as [v|e]; simpl in Hb; [|discriminate].
    injection Hb as <-; eauto. }
  exists i; split; [reflexivity|]; split; [reflexivity|]; split.
  - unfold rect; simpl; eapply forall2_forall; [exact H2 | exact Hr|].
    intros r r' [Hl [v [_ ->]]] _; destruct (replace_nth_spec r i v ltac:(lia)) as [H _]; lia.
  - eapply forall2_strengthen; [exact H2 | exact Hr|].
    intros r r' [Hl [v [Hv ->]]] _; destruct (replace_nth_spec r i v ltac:(lia)) as [_ H].
    rewrite H, Nat.eqb_refl; split; [exact Hv|].
    intros j Hj; rewrite H; apply Nat.eqb_neq in Hj; rewrite Hj; reflexivity.
Qed.

Lemma frame_of_records_rect (recs : list record) : rect (frame_of_records recs).
Proof.
  unfold rect, frame_of_records; simpl; apply Forall_forall; intros r Hr.
  apply in_map_iff in Hr; destruct Hr as [x [<- _]]; apply length_map.
Qed.

Lemma process_stage1_rect (countries : list string) (df t : table) :
  Process.process_stage1 countries df = Ok t -> rect t.
Proof.
  unfold Process.process_stage1.
  destruct (Process.explode (table_records df)) as [long|e]; simpl; [|discriminate].
  intros H; destruct (column_apply_spec _ _ _ _ (frame_of_records_rect long) H)
    as [i [_ [_ [Hr _]]]]; exact Hr.
Qed.

Lemma replace_quotes_spec (t : table) :
  rect t -> cols (Process.replace_quotes t) = cols t /\ rect (Process.replace_quotes t)
  /\ Forall2 (fun r r' => forall j z, nth j r VNaN = VInt z -> nth j r' VNaN = VInt z)
             (rows t) (rows (Process.replace_quotes t)).
Proof.
  intros Hr; unfold Process.replace_quotes; simpl; split; [reflexivity|]; split.
  - unfold rect in *; simpl; apply Forall_map; eapply Forall_impl; [|exact Hr].
    intros r Hl; rewrite length_map; exact Hl.
  - clear Hr; induction (rows t) as [|r rs IH]; simpl; constructor; [|exact IH].
    intros j z Hz.
    change VNaN with ((fun v => match v with
                                 | VStr s => VStr (Process.replace_all Process.mojibake_quote "'" s)
                                 | _ => v end) VNaN).
    rewrite map_nth, Hz; reflexivity.
Qed.

Lemma combine_map_l {A B} (g : B -> A) (l : list B) :
  combine (map g l) l = map (fun r => (g r, r)) l.
Proof. induction l as [|x l IH]; simpl; [reflexivity | rewrite IH; reflexivity]. Qed.

Lemma forall2_map_self {A B} (P : A -> B -> Prop) (g : A -> B) (l : list A) :
  Forall (fun x => P x (g x)) l -> Forall2 P l (map g l).
Proof. induction 1; simpl; constructor; assumption. Qed.

Lemma blank_pi_name_spec (t t' : table) :
  rect t -> Process.blank_pi_name t = Ok t' ->
  exists j k, col_index (cols t) "pi_add" = Some j /\ col_index (cols t') "pi_name" = Some k
  /\ (forall c i, col_index (cols t) c = Some i -> col_index (cols t') c = Some i)
  /\ Forall2 (fun r r' => (forall c i, col_index (cols t) c = Some i -> c <> "pi_name" ->
                                       nth i r' VNaN = nth i r VNaN)
                          /\ (nth j r VNaN = VStr "No" -> nth k r' VNaN = VStr ""))
             (rows t) (rows t').
Proof.
  intros Hr; unfold Process.blank_pi_name, column.
  destruct (col_index (cols t) "pi_add") as [j|] eqn:Ej; [|discriminate].
  destruct (col_index (cols t) "pi_name") as [k|] eqn:Ek; intros H; injection H as <-;
    exists j; simpl; rewrite map_map, combine_map_l, map_map.
  - exists k; split; [reflexivity|]; split; [exact Ek|]; split; [tauto|].
    destruct (col_index_spec _ _ _ Ek) as [Hk Hkn].
    apply forall2_map_self; eapply Forall_impl; [|exact Hr]; intros r Hl; cbv beta in Hl; split.
    + intros c i Hi Hc; destruct (col_index_spec _ _ _ Hi) as [Hi1 Hi2].
      destruct (value_eqb (nth j r VNaN) (VStr "No")); [|reflexivity].
      destruct (replace_nth_spec r k (VStr "") ltac:(lia)) as [_ H]; rewrite H.
      destruct (Nat.eqb i k) eqn:E; [|reflexivity].
      apply Nat.eqb_eq in E; subst i; congruence.
    + intros Hno; rewrite Hno; simpl.
      destruct (replace_nth_spec r k (VStr "") ltac:(lia)) as [_ H]; rewrite H, Nat.eqb_refl.
      reflexivity.
  - exists (length (cols t)); split; [reflexivity|]; split; [apply col_index_app_new, Ek|]; split;
      [intros c i Hi; apply col_index_app, Hi|].
    apply forall2_map_self; eapply Forall_impl; [|exact Hr]; intros r Hl; cbv beta in Hl; split.
    + intros c i Hi _; destruct (col_index_spec _ _ _ Hi) as [Hi1 _].
      apply app_nth1; lia.
    + intros Hno; rewrite Hno; simpl; rewrite app_nth2 by lia.
      rewrite Hl, Nat.sub_diag; reflexivity.
Qed.

(** X23. A successful run of the process script leaves [number_role] holding
    integers only, and blanks [pi_name] on every row whose [pi_add] is
    ["No"]. *)
Theorem process_script_output (countries : list string) (df t : table) :
  Process.process_script countries df = Ok t ->
  (exists i, col_index (cols t) "number_role" = Some i
             /\ Forall (fun r => exists z, nth i r VNaN = VInt z) (rows t))
  /\ (exists j k, col_index (cols t) "pi_add" = Some j /\ col_index (cols t) "pi_name" = Some k
                  /\ Forall (fun r => nth j r VNaN = VStr "No" -> nth k r VNaN = VStr "") (rows t)).
Proof.
  unfold Process.process_script.
  destruct (Process.process_stage1 countries df) as [df1|e] eqn:E1; simpl; [|discriminate].
  pose proof (process_stage1_rect _ _ _ E1) as Hr1.
  destruct (column_apply df1 "number_role" Process.astype_int_cell) as [df2|e] eqn:E2;
    simpl; [|discriminate].
  destruct (column_apply_spec _ _ _ _ Hr1 E2) as [i [Hi [Hc2 [Hr2 H2]]]].
  destruct (replace_quotes_spec df2 Hr2) as [Hc3 [Hr3 H3]].
  intros E4; destruct (blank_pi_name_spec _ _ Hr3 E4) as [j [k [Hj [Hk [Hpres H4]]]]].
  assert (Hi3 : col_index (cols (Process.replace_quotes df2)) "number_role" = Some i)
    by (rewrite Hc3, Hc2; exact Hi).
  split.
  - exists i; split; [apply Hpres, Hi3|].
    assert (Hint2 : Forall (fun r => exists z, nth i r VNaN = VInt z) (rows df2)).
    { eapply forall2_forall; [exact H2 | exact Hr1|].
      intros r r' [Hv _] _; destruct (astype_int_cell_ok _ _ Hv) as [z [Hz _]]; eauto. }
    assert (Hint3 : Forall (fun r => exists z, nth i r VNaN = VInt z) (rows (Process.replace_quotes df2))).
    { eapply forall2_forall; [exact H3 | exact Hint2|]; intros r r' Hq [z Hz]; eauto. }
    eapply forall2_forall; [exact H4 | exact Hint3|].
    intros r r' [Hkeep _] [z Hz]; exists z; rewrite (Hkeep _ _ Hi3) by discriminate; exact Hz.
  - exists j, k; split; [apply Hpres, Hj|]; split; [exact Hk|].
    eapply forall2_forall; [exact H4 | exact Hr3|].
    intros r r' [Hkeep Hno] _ Hr'; apply Hno; rewrite <- (Hkeep _ _ Hj) by discriminate; exact Hr'.
Qed.

Definition role_table : table :=
  mk_table ["hire_role"; "number_role_ra"; "hire_position_location_ra"; "pi_name"; "pi_add"]
    [[VStr "RA"; VStr "2"; VStr "Kenya"; VStr "Ada"; VStr "No"]].

Lemma process_script_output_witness :
  exists i, col_index (cols (match Process.process_script ["Kenya"] role_table with
                             | Ok t => t | Err _ => role_table end)) "number_role" = Some i
            /\ Forall (fun r => exists z, nth i r VNaN = VInt z)
                      (rows (match Process.process_script ["Kenya"] role_table with
                             | Ok t => t | Err _ => role_table end)).
Proof.
  exact (proj1 (process_script_output ["Kenya"] role_table _ eq_refl)).
Defined.

(** ** Multiple-choice labels: instances *)

Lemma get_labels_for_multiple_string_labels_witness :
  Labels.get_labels_for_multiple "fruits" (VStr " b  a	z ") fruit_labels
  = Ok (VStr "Banana | Apple | z").
Proof.
  rewrite (get_labels_for_multiple_string_labels "fruits" "fruit" fruit_labels " b  a	z ");
    [reflexivity | reflexivity | discriminate |].
  intros c lab Hc Hl; vm_compute in Hc; destruct Hc as [<- | [<- | [<- | []]]];
    vm_compute in Hl; first [discriminate Hl | injection Hl as <-; eauto].
Defined.

(** ** Labels built by [apply_scto_cleaning] and read by [get_label] *)

(** The choices row [r] gives [list_name = ln] and code [key] a label. *)
Definition choice_entry (ln key : string) (r : record) : option value :=
  match rget r "list_name", rget r "value", rget r "label" with
  | Some lnv, Some v, Some lab =>
      if notna lnv && notna v && notna lab && value_eqb (VStr ln) lnv
         && String.eqb key (Labels.normalize_code v)
      then Some lab else None
  | _, _, _ => None
  end.

Definition last_choice_label (ln key : string) (recs : list record) : option value :=
  fold_left (fun acc r => match choice_entry ln key r with Some x => Some x | None => acc end)
            recs None.

Lemma label_map_inner_get (ln key : string) (recs : list record)
    (lm : list (value * list (string * value))) :
  dict_get String.eqb
    (dict_get_default value_eqb
       (fold_left (fun lm row =>
          match rget row "list_name", rget row "value", rget row "label" with
          | Some lnv, Some v, Some lab =>
              if notna lnv && notna v && notna lab then
                dict_set value_eqb lm lnv
                  (dict_set String.eqb (dict_get_default value_eqb lm lnv [])
                     (Labels.normalize_code v) lab)
              else lm
          | _, _, _ => lm
          end) recs lm) (VStr ln) []) key
  = fold_left (fun acc r => match choice_entry ln key r with Some x => Some x | None => acc end)
              recs (dict_get String.eqb (dict_get_default value_eqb lm (VStr ln) []) key).
Proof.
  revert lm; induction recs as [|r recs IH]; intros lm; simpl; [reflexivity|].
  rewrite IH; f_equal; unfold choice_entry.
  destruct (rget r "list_name") as [lnv|], (rget r "value") as [v|], (rget r "label") as [lab|];
    try reflexivity.
  destruct (notna lnv && notna v && notna lab); cbn [andb]; [|reflexivity].
  destruct (value_eqb (VStr ln) lnv) eqn:E.
  - apply value_eqb_spec in E; subst lnv.
    unfold dict_get_default at 1; rewrite (dict_get_set_same _ value_eqb_spec).
    destruct (String.eqb key (Labels.normalize_code v)) eqn:Ek.
    + apply String.eqb_eq in Ek; rewrite Ek; apply (dict_get_set_same _ string_eqb_spec).
    + apply (dict_get_set_other _ string_eqb_spec); intros Heq; rewrite Heq, String.eqb_refl in Ek;
        discriminate.
  - unfold dict_get_default at 1 3; rewrite (dict_get_set_other _ value_eqb_spec); [reflexivity|].
    intros Heq; rewrite Heq, value_eqb_refl in E; discriminate.
Qed.

(** X18. After [apply_scto_cleaning], [get_label] shows a select_one code with
    the label of the last choices row of the field's list whose code,
    read through [normalize_code] (so [1.0] and [1] agree), is the stripped
    value; without such a row the value is shown as is. *)
Theorem get_label_after_cleaning (df df' : table) (survey choices : table)
    (li : Labels.label_info) (field ln : string) (v : value) :
  Labels.apply_scto_cleaning df (Ok survey) (Ok choices) = Ok (df', li) ->
  dict_get value_eqb (Labels.select_one li) (VStr field) = Some ln ->
  Labels.get_label field v li
  = match last_choice_label ln (strip (py_str v)) (table_records choices) with
    | Some lab => lab
    | None => v
    end.
Proof.
  unfold Labels.apply_scto_cleaning; simpl.
  destruct (Labels.classify_fields (table_records survey)) as [one multi].
  unfold Labels.build_label_map.
  destruct (_ && _ && _); simpl; [|discriminate].
  intros H Hln; injection H as _ <-.
  unfold Labels.get_label, Labels.choice_list, dict_get_default at 1; simpl in *; rewrite Hln.
  unfold last_choice_label; rewrite label_map_inner_get; reflexivity.
Qed.

Definition yes_no_survey : table :=
  mk_table ["type"; "name"] [[VStr "select_one yes_no"; VStr "pi_add"]].

Definition yes_no_choices : table :=
  mk_table ["list_name"; "value"; "label"]
    [[VStr "yes_no"; VInt 1; VStr "Yes"]; [VStr "yes_no"; VInt 0; VStr "No"];
     [VStr "yes_no"; VStr "1"; VStr "Yes, confirmed"]].

Lemma get_label_after_cleaning_witness :
  Labels.get_label "pi_add" (VInt 1)
    (snd (match Labels.apply_scto_cleaning sample_primary (Ok yes_no_survey) (Ok yes_no_choices)
          with Ok p => p | Err _ => (sample_primary, Labels.mk_label_info [] [] []) end))
  = VStr "Yes, confirmed".
Proof.
  exact (get_label_after_cleaning sample_primary sample_primary yes_no_survey yes_no_choices _
           "pi_add" "yes_no" (VInt 1) eq_refl eq_refl).
Defined.
